(** * convert_nemo_to_lhotse: a shallow embedding of the manifest converter

    The development follows [scripts/audio_to_audio/convert_nemo_to_lhotse.py]:
    [create_recording], [create_array] and the body of the loop of [main].
    A manifest record is a Python dict, modelled as a finite map from
    strings to JSON values; the record is mutated by [pop], so the loop
    body runs in a small state-and-exception monad over the record.
    Everything that touches the disk (the audio prober, the recording
    constructor, the array loader, path resolution) is a field of
    [FileSystem] and stays abstract.  A cut keeps what the script
    attaches to it the way lhotse does, in its [custom] dict. *)

From Stdlib Require Import ZArith Lia Ascii.
From Stdlib Require Import Floats.PrimFloat.
From stdpp Require Import gmap strings list fin_maps.

Local Open Scope string_scope.
Local Open Scope Z_scope.
Local Open Scope list_scope.

#[local] Set Warnings "-clear-no-such-hyp".

(** ** JSON values and Python exceptions *)

(** What [load_jsonl] yields for a field: Python's image of a JSON value. *)
#[local] Unset Elimination Schemes.
Inductive value : Type :=
| VNone
| VBool (b : bool)
| VInt (z : Z)
| VFloat (f : float)
| VStr (s : string)
| VList (l : list value)
| VDict (d : list (string * value)).
#[local] Set Elimination Schemes.

(** What [get_full_path] returns for a path field: a path, or the list
    of what it returns for the entries of a list. *)
#[local] Unset Elimination Schemes.
Inductive paths : Type :=
| OnePath (p : string)
| PathList (l : list paths).
#[local] Set Elimination Schemes.

(** A list of paths. *)
Definition ManyPaths (ps : list string) : paths := PathList (OnePath <$> ps).

(** The three [assert] statements of the script, with the data their
    messages are formatted from. *)
Inductive assertion : Type :=
| MismatchedSamplingRates (path_or_paths : paths)
| SingleChannelSelector (selector_key : string) (channels : value)
| OnlyNumpySupported (path : string).

(** [OSError] stands for what a collaborator raises on a file it cannot
    read, [NotAPath] for what the audio prober raises when it is handed
    a list instead of a path. *)
Inductive exn : Type :=
| KeyError (key : string)
| AssertionError (a : assertion)
| ValueError (v : value)
| UnboundLocalError (var : string)
| IndexError
| TypeError
| AttributeError (attr : string)
| OSError (path : string)
| NotAPath (entry : list paths).

(** The error kinds of the specification, read off the exceptions. *)
Definition MissingField (e : exn) : Prop :=
  match e with KeyError _ => True | _ => False end.

Definition SchemaViolation (e : exn) : Prop :=
  match e with
  | AssertionError (MismatchedSamplingRates _) => True
  | AssertionError (SingleChannelSelector _ _) => True
  | _ => False
  end.

Definition UnsupportedFormat (e : exn) : Prop :=
  match e with AssertionError (OnlyNumpySupported _) => True | _ => False end.

Inductive result (A : Type) : Type :=
| Ok (a : A)
| Err (e : exn).
Arguments Ok {A} a.
Arguments Err {A} e.

#[global] Instance result_ret : MRet result := λ A a, Ok a.
#[global] Instance result_bind : MBind result :=
  λ A B f r, match r with Ok a => f a | Err e => Err e end.

(** [assert cond, msg] *)
Definition py_assert (cond : bool) (msg : assertion) : result unit :=
  if cond then Ok tt else Err (AssertionError msg).

(** [len(x)] for the values a manifest can hold. *)
Definition py_len (x : value) : result nat :=
  match x with
  | VList l => Ok (length l)
  | VStr s => Ok (String.length s)
  | VDict d => Ok (length d)
  | _ => Err TypeError
  end.

(** [list(range(a, b))] *)
Definition py_range (a b : Z) : list Z := seqZ a (b - a).

(** [s.endswith(suffix)] *)
Definition endswith (s suffix : string) : bool :=
  let n := String.length s in
  let m := String.length suffix in
  (m <=? n)%nat && String.eqb (String.substring (n - m) m s) suffix.

(** [for x in xs: st = body(st, x)], stopping at the first exception. *)
Fixpoint for_each {S X : Type} (body : S → X → result S) (xs : list X) (st : S)
  : result S :=
  match xs with
  | [] => Ok st
  | x :: xs' => st' ← body st x; for_each body xs' st'
  end.

(** ** The lhotse data model, as far as the script builds it *)

(** What [lhotse.audio.info] reports for one file. *)
Record AudioInfo : Type := {
  info_channels : Z;
  info_frames : Z;
  info_samplerate : Z;
  info_duration : float
}.

Record AudioSource : Type := {
  src_type : string;
  src_channels : list Z;
  src_source : string
}.

Record Recording : Type := {
  rec_id : string;
  sources : list AudioSource;
  sampling_rate : Z;
  num_samples : Z;
  rec_duration : float;
  channel_ids : list Z
}.

Record Array : Type := {
  storage_type : string;
  storage_path : string;
  storage_key : string;
  shape : list Z
}.

(** A loaded numpy array: its shape and its elements. *)
Record ndarray : Type := {
  arr_shape : list Z;
  arr_data : list float
}.

(** [Recording.num_channels] *)
Definition rec_num_channels (r : Recording) : nat := length (channel_ids r).

(** What a cut keeps under a key of its [custom] dict: a field copied
    from the record, or an object the script has built. *)
Inductive custom_value : Type :=
| CValue (v : value)
| CRecording (r : Recording)
| CArray (a : Array).

(** The cut classes are lhotse's.  A cut is a bounded view over the
    primary recording.  Its class has no field for a target recording,
    a reference recording or an embedding: an attribute that is not a
    field of the class is kept in the dict [custom], next to the
    selectors and the fields copied from the record, and a fresh cut
    has no dict at all ([custom] is [None]). *)
Record Cut : Type := {
  cut_id : string;
  start : value;
  duration : value;
  channel : value;
  recording : Recording;
  custom : option (gmap string custom_value)
}.

(** The entries of [cut.custom], none when there is no dict. *)
Definition custom_map (c : Cut) : gmap string custom_value :=
  default ∅ (custom c).

(** [cut.target_recording], [cut.reference_recording] and
    [cut.embedding_vector], read back: the entry of [custom] under the
    attribute's name. *)
Definition target_recording (c : Cut) : option custom_value :=
  custom_map c !! "target_recording".

Definition reference_recording (c : Cut) : option custom_value :=
  custom_map c !! "reference_recording".

Definition embedding_vector (c : Cut) : option custom_value :=
  custom_map c !! "embedding_vector".

(** ** The collaborators on disk *)

(** What the files hold: an answer of [None] stands for a file the
    collaborator cannot read. *)
Record FileSystem : Type := {
  audio_info : string → option AudioInfo;
  audio_recording : string → option Recording;
  numpy_array : string → option ndarray;
  (** the full path of one audio file, given the manifest it is listed in *)
  full_path : string → string → string
}.

Definition read {A : Type} (path : string) (o : option A) : result A :=
  match o with
  | Some a => Ok a
  | None => Err (OSError path)
  end.

(** [lhotse.audio.info(path)] *)
Definition info (fs : FileSystem) (path : string) : result AudioInfo :=
  read path (audio_info fs path).

(** [Recording.from_file(path)] *)
Definition from_file (fs : FileSystem) (path : string) : result Recording :=
  read path (audio_recording fs path).

(** [np.load(path)] *)
Definition np_load (fs : FileSystem) (path : string) : result ndarray :=
  read path (numpy_array fs path).

(** Modelled from the spec: [get_full_path] lives in
    [nemo.collections.common.parts.preprocessing.manifest]; the field
    holds a single path or a list of paths, each resolved against the
    manifest's location.  The spec says no more; for the other values
    the model follows NeMo's function, which maps itself over the
    entries of a list, whatever they are, and raises [ValueError] for a
    value that is neither a string nor a list. *)
Fixpoint get_full_path (fs : FileSystem) (audio_file : value)
    (manifest_file : string) : result paths :=
  match audio_file with
  | VStr p => Ok (OnePath (full_path fs manifest_file p))
  | VList l =>
      ps ← (fix each (l : list value) : result (list paths) :=
              match l with
              | [] => Ok []
              | a :: l' =>
                  a' ← get_full_path fs a manifest_file;
                  ps ← each l';
                  Ok (a' :: ps)
              end) l;
      Ok (PathList ps)
  | _ => Err (ValueError audio_file)
  end.

(** ** [create_recording] *)

(** The local variables the [for p in path_or_paths] loop updates; [p]
    is unbound until the first iteration. *)
Record loop_vars : Type := {
  cur_channel_idx : Z;
  loop_sources : list AudioSource;
  infos : list AudioInfo;
  p : option string
}.

Definition loop_init : loop_vars :=
  {| cur_channel_idx := 0; loop_sources := []; infos := []; p := None |}.

(** Lines 62-67: one iteration of the loop.  [info(p)] comes first: on
    an entry that is itself a list it raises, so that the rest of the
    body only ever sees a path. *)
Definition loop_body (fs : FileSystem) (st : loop_vars) (entry : paths)
  : result loop_vars :=
  match entry with
  | OnePath path =>
      i ← info fs path;
      Ok {| cur_channel_idx := cur_channel_idx st + info_channels i;
            loop_sources :=
              (loop_sources st ++
               [ {| src_type := "file";
                    src_channels :=
                      py_range (cur_channel_idx st)
                               (cur_channel_idx st + info_channels i);
                    src_source := path |} ])%list;
            infos := (infos st ++ [i])%list;
            p := Some path |}
  | PathList l => Err (NotAPath l)
  end.

(** Lines 68-69: [all(i.samplerate == infos[0].samplerate for i in infos[1:])];
    [infos[0]] is only evaluated for an element of [infos[1:]]. *)
Definition same_samplerates (infos : list AudioInfo) : bool :=
  match infos with
  | [] => true
  | i0 :: rest => forallb (λ i, info_samplerate i =? info_samplerate i0) rest
  end.

(** [s[0]] on a string *)
Definition str_first (s : string) : result string :=
  match s with
  | EmptyString => Err IndexError
  | String c _ => Ok (String c EmptyString)
  end.

(** [infos[0]] *)
Definition list_first {A : Type} (l : list A) : result A :=
  match l with
  | [] => Err IndexError
  | x :: _ => Ok x
  end.

Definition create_recording (fs : FileSystem) (path_or_paths : paths)
  : result Recording :=
  match path_or_paths with
  | PathList entries =>
      st ← for_each (loop_body fs) entries loop_init;
      _ ← py_assert (same_samplerates (infos st))
            (MismatchedSamplingRates path_or_paths);
      id ← match p st with
           | None => Err (UnboundLocalError "p")
           | Some last => str_first last
           end;
      i0 ← list_first (infos st);
      Ok {| rec_id := id;
            sources := loop_sources st;
            sampling_rate := info_samplerate i0;
            num_samples := info_frames i0;
            rec_duration := info_duration i0;
            channel_ids := py_range 0 (cur_channel_idx st) |}
  | OnePath path => from_file fs path
  end.

(** ** [create_array] *)

(** [s.rfind("/") + 1]: the length of the longest prefix ending in a slash. *)
Fixpoint after_last_slash (s : string) : nat :=
  match s with
  | EmptyString => O
  | String c s' =>
      match after_last_slash s' with
      | O => if Ascii.eqb c "/"%char then 1%nat else O
      | S n => S (S n)
      end
  end.

(** [s.rstrip("/")] *)
Fixpoint rstrip_slash (s : string) : string :=
  match s with
  | EmptyString => EmptyString
  | String c s' =>
      match rstrip_slash s' with
      | EmptyString => if Ascii.eqb c "/"%char then EmptyString else String c EmptyString
      | t => String c t
      end
  end.

(** [os.path.split] of [posixpath]. *)
Definition os_path_split (path : string) : string * string :=
  let i := after_last_slash path in
  let head := String.substring 0 i path in
  let tail := String.substring i (String.length path - i) path in
  let stripped := rstrip_slash head in
  (match stripped with EmptyString => head | _ => stripped end, tail).

Definition create_array (fs : FileSystem) (path : paths) : result Array :=
  match path with
  | OnePath path =>
      _ ← py_assert (endswith path ".npy") (OnlyNumpySupported path);
      arr ← np_load fs path;
      let '(parent, path) := os_path_split path in
      Ok {| storage_type := "numpy_files";
            storage_path := parent;
            storage_key := path;
            shape := arr_shape arr |}
  | PathList _ => Err (AttributeError "endswith")
  end.

(** ** Segments *)

(** Modelled from the spec: [Recording.to_cut] is lhotse's; step 3
    builds a Segment over the whole primary AudioReference, with no
    annotation and nothing in the extension map: the cut has no
    [custom] dict yet.  The segment of a one-channel recording is a
    mono cut on channel 0, any other recording gives a multi-channel
    cut over all its channels. *)
Definition to_cut (r : Recording) : Cut :=
  {| cut_id := rec_id r;
     start := VFloat 0;
     duration := VFloat (rec_duration r);
     channel := if (rec_num_channels r =? 1)%nat then VInt 0
                else VList (VInt <$> channel_ids r);
     recording := r;
     custom := None |}.

(** [cut.num_channels]: one for a mono cut, the number of channels of a
    multi-channel cut. *)
Definition cut_num_channels (c : Cut) : nat :=
  match channel c with
  | VList l => length l
  | _ => 1%nat
  end.

(** Modelled from the spec: [truncate] is lhotse's; step 3 slices the
    segment to [[offset, offset + duration)]. *)
Definition truncate (c : Cut) (duration offset : value) : Cut :=
  {| cut_id := cut_id c;
     start := offset;
     duration := duration;
     channel := channel c;
     recording := recording c;
     custom := custom c |}.

(** Modelled from the spec: [with_channels] is lhotse's; step 4 narrows
    the segment to the named channel subset. *)
Definition with_channels (c : Cut) (channels : value) : Cut :=
  {| cut_id := cut_id c;
     start := start c;
     duration := duration c;
     channel := channels;
     recording := recording c;
     custom := custom c |}.

Definition set_custom (c : Cut) (m : option (gmap string custom_value)) : Cut :=
  {| cut_id := cut_id c;
     start := start c;
     duration := duration c;
     channel := channel c;
     recording := recording c;
     custom := m |}.

(** [cut.<name> = x] for a name that is not a field of the cut class:
    lhotse stores [x] under [name] in [custom], and gives a cut that
    has no dict one. *)
Definition set_attr (c : Cut) (name : string) (x : custom_value) : Cut :=
  set_custom c (Some (<[name := x]> (custom_map c))).

(** Modelled from the spec: [with_custom] is lhotse's; steps 5 and 6
    attach the selector under a distinct extension key. *)
Definition with_custom (c : Cut) (name : string) (v : value) : Cut :=
  set_attr c name (CValue v).

(** [cut.custom.update(item)]: the entries of [item] win; a cut that
    has no dict has [None] for [custom], which has no [update]. *)
Definition custom_update (c : Cut) (item : gmap string value) : result Cut :=
  match custom c with
  | None => Err (AttributeError "update")
  | Some m => Ok (set_custom c (Some ((CValue <$> item) ∪ m)))
  end.

(** [cut.target_recording = r] *)
Definition set_target_recording (c : Cut) (r : Recording) : Cut :=
  set_attr c "target_recording" (CRecording r).

(** [cut.reference_recording = r] *)
Definition set_reference_recording (c : Cut) (r : Recording) : Cut :=
  set_attr c "reference_recording" (CRecording r).

(** [cut.embedding_vector = a] *)
Definition set_embedding_vector (c : Cut) (a : Array) : Cut :=
  set_attr c "embedding_vector" (CArray a).

(** ** The record being converted: a mutable dict *)

(** A computation that reads and pops fields of the record and may
    raise. *)
Definition M (A : Type) : Type := gmap string value → result (A * gmap string value).

#[global] Instance M_ret : MRet M := λ A a item, Ok (a, item).
#[global] Instance M_bind : MBind M :=
  λ A B f m item,
    match m item with
    | Ok (a, item') => f a item'
    | Err e => Err e
    end.

(** A computation that leaves the record alone. *)
Definition lift {A : Type} (r : result A) : M A :=
  λ item, match r with Ok a => Ok (a, item) | Err e => Err e end.

(** [item.pop(key)] *)
Definition pop (key : string) : M value :=
  λ item,
    match item !! key with
    | Some v => Ok (v, delete key item)
    | None => Err (KeyError key)
    end.

(** [item.pop(key, default)] *)
Definition pop_default (key : string) (default : value) : M value :=
  λ item,
    match item !! key with
    | Some v => Ok (v, delete key item)
    | None => Ok (default, item)
    end.

(** [key in item] *)
Definition contains (key : string) : M bool :=
  λ item, Ok (bool_decide (is_Some (item !! key)), item).

(** The record as it stands. *)
Definition get_item : M (gmap string value) := λ item, Ok (item, item).

(** [x is not None] *)
Definition is_not_None (x : value) : bool :=
  match x with VNone => false | _ => true end.

(** ** [main] *)

Definition INPUT_CHANNEL_SELECTOR : string := "input_channel_selector".
Definition TARGET_CHANNEL_SELECTOR : string := "target_channel_selector".
Definition REFERENCE_CHANNEL_SELECTOR : string := "reference_channel_selector".
Definition LHOTSE_TARGET_CHANNEL_SELECTOR : string :=
  "target_recording_channel_selector".
Definition LHOTSE_REFERENCE_CHANNEL_SELECTOR : string :=
  "reference_recording_channel_selector".

(** The namespace [parse_args] returns. *)
Record Args : Type := {
  input : string;
  output : string;
  input_key : string;
  target_key : string;
  reference_key : string;
  embedding_key : string
}.

(** The defaults of the optional arguments. *)
Definition default_args (input output : string) : Args :=
  {| input := input;
     output := output;
     input_key := "audio_filepath";
     target_key := "target_filepath";
     reference_key := "reference_filepath";
     embedding_key := "embedding_filepath" |}.

Section main.
Variable fs : FileSystem.
Variable args : Args.

(** Lines 97-98: the primary recording and the truncated cut. *)
Definition make_cut : M Cut :=
  audio_file ← pop (input_key args);
  path ← lift (get_full_path fs audio_file (input args));
  recording ← lift (create_recording fs path);
  let cut := to_cut recording in
  duration ← pop "duration";
  offset ← pop_default "offset" (VFloat 0);
  mret (truncate cut duration offset).

(** Lines 100-106: the input channel selector. *)
Definition select_input_channels (cut : Cut) : M Cut :=
  channels ← pop_default INPUT_CHANNEL_SELECTOR VNone;
  if is_not_None channels then
    if (cut_num_channels cut =? 1)%nat then
      n ← lift (py_len channels);
      _ ← lift (py_assert (n =? 1)%nat
                  (SingleChannelSelector INPUT_CHANNEL_SELECTOR channels));
      mret cut
    else
      mret (with_channels cut channels)
  else mret cut.

(** Lines 108-118: the target recording and its channel selector. *)
Definition attach_target (cut : Cut) : M Cut :=
  present ← contains (target_key args);
  if (present : bool) then
    audio_file ← pop (target_key args);
    path ← lift (get_full_path fs audio_file (input args));
    target ← lift (create_recording fs path);
    let cut := set_target_recording cut target in
    channels ← pop_default TARGET_CHANNEL_SELECTOR VNone;
    if is_not_None channels then
      if (rec_num_channels target =? 1)%nat then
        n ← lift (py_len channels);
        _ ← lift (py_assert (n =? 1)%nat
                    (SingleChannelSelector TARGET_CHANNEL_SELECTOR channels));
        mret cut
      else
        mret (with_custom cut LHOTSE_TARGET_CHANNEL_SELECTOR channels)
    else mret cut
  else mret cut.

(** Lines 120-130: the reference recording and its channel selector. *)
Definition attach_reference (cut : Cut) : M Cut :=
  present ← contains (reference_key args);
  if (present : bool) then
    audio_file ← pop (reference_key args);
    path ← lift (get_full_path fs audio_file (input args));
    reference ← lift (create_recording fs path);
    let cut := set_reference_recording cut reference in
    channels ← pop_default REFERENCE_CHANNEL_SELECTOR VNone;
    if is_not_None channels then
      if (rec_num_channels reference =? 1)%nat then
        n ← lift (py_len channels);
        _ ← lift (py_assert (n =? 1)%nat
                    (SingleChannelSelector REFERENCE_CHANNEL_SELECTOR channels));
        mret cut
      else
        mret (with_custom cut LHOTSE_REFERENCE_CHANNEL_SELECTOR channels)
    else mret cut
  else mret cut.

(** Lines 132-135: the embedding. *)
Definition attach_embedding (cut : Cut) : M Cut :=
  present ← contains (embedding_key args);
  if (present : bool) then
    audio_file ← pop (embedding_key args);
    path ← lift (get_full_path fs audio_file (input args));
    embedding ← lift (create_array fs path);
    mret (set_embedding_vector cut embedding)
  else mret cut.

(** Lines 137-138: any field that is still left goes to the custom
    fields, if the cut has the dict for them. *)
Definition copy_remaining (cut : Cut) : M Cut :=
  item ← get_item;
  if bool_decide (item ≠ ∅) then lift (custom_update cut item) else mret cut.

(** Lines 97-138: the body of the loop over the manifest, up to the
    cut handed to the writer; the second component of a result is
    the record as the body leaves it. *)
Definition convert_item : M Cut :=
  cut ← make_cut;
  cut ← select_input_channels cut;
  cut ← attach_target cut;
  cut ← attach_reference cut;
  cut ← attach_embedding cut;
  copy_remaining cut.

(** Lines 93-140: the loop of [main].  [written] is what the writer
    has received so far; the first exception ends the run. *)
Fixpoint main_loop (items : list (gmap string value)) (written : list Cut)
  : list Cut * option exn :=
  match items with
  | [] => (written, None)
  | item :: rest =>
      match convert_item item with
      | Ok (cut, _) => main_loop rest (written ++ [cut])
      | Err e => (written, Some e)
      end
  end.

Definition main (items : list (gmap string value)) : list Cut * option exn :=
  main_loop items [].

End main.

(** * Notions the properties are stated with *)

(** The channels of all the probed files together. *)
Fixpoint total_channels (infs : list AudioInfo) : Z :=
  match infs with
  | [] => 0
  | i :: infs' => info_channels i + total_channels infs'
  end.

(** The sources the loop is expected to build from [start] on. *)
Fixpoint expected_sources (start : Z) (ps : list string) (infs : list AudioInfo)
  : list AudioSource :=
  match ps, infs with
  | path :: ps', i :: infs' =>
      {| src_type := "file";
         src_channels := py_range start (start + info_channels i);
         src_source := path |}
      :: expected_sources (start + info_channels i) ps' infs'
  | _, _ => []
  end.

(** Every file of [ps] is probed successfully, with answers [infs]. *)
Definition probed (fs : FileSystem) (ps : list string) (infs : list AudioInfo) : Prop :=
  Forall2 (λ path i, info fs path = Ok i) ps infs.

(** Two probers that agree on channel counts and sampling rates. *)
Definition same_layout (i j : AudioInfo) : Prop :=
  info_channels i = info_channels j ∧ info_samplerate i = info_samplerate j.

(** The string contains a slash. *)
Fixpoint has_slash (s : string) : bool :=
  match s with
  | EmptyString => false
  | String c s' => Ascii.eqb c "/"%char || has_slash s'
  end.

(** Unfolds the operations of the record monad. *)
Ltac unfold_M :=
  unfold mbind, M_bind, result_bind, pop, pop_default, lift, contains,
    get_item, mret, M_ret.

(** Rewrites a lookup in a map built by insertions under the keys the
    converter writes. *)
Ltac attached_lookup :=
  repeat first
    [ rewrite lookup_insert_eq
    | rewrite lookup_insert_ne by discriminate
    | rewrite lookup_empty ].

(** The record without the fields named in [K]. *)
Definition without (K : gset string) (item : gmap string value)
  : gmap string value :=
  filter (λ kv, kv.1 ∉ K) item.

(** The fields popped for the primary recording, the truncation and
    the input channel selector. *)
Definition primary_keys (args : Args) : gset string :=
  {[input_key args; "duration"; "offset"; INPUT_CHANNEL_SELECTOR]}.

(** The fields popped for the target recording, should [item] name one. *)
Definition target_keys (args : Args) (item : gmap string value) : gset string :=
  if decide (target_key args ∈ dom item)
  then {[target_key args; TARGET_CHANNEL_SELECTOR]} else ∅.

(** The fields popped for the reference recording, should [item] name one. *)
Definition reference_keys (args : Args) (item : gmap string value) : gset string :=
  if decide (reference_key args ∈ dom item)
  then {[reference_key args; REFERENCE_CHANNEL_SELECTOR]} else ∅.

(** The field popped for the embedding, should [item] name one. *)
Definition embedding_keys (args : Args) (item : gmap string value) : gset string :=
  if decide (embedding_key args ∈ dom item)
  then {[embedding_key args]} else ∅.

(** The fields the converter pops, stage after stage: a path key counts
    when the record, as the earlier stages left it, still holds it. *)
Definition popped_keys (args : Args) (item : gmap string value) : gset string :=
  let K0 := primary_keys args in
  let K1 := K0 ∪ target_keys args (without K0 item) in
  let K2 := K1 ∪ reference_keys args (without K1 item) in
  K2 ∪ embedding_keys args (without K2 item).

(** The keys of the record the converter consumes. *)
Definition consumed_keys (args : Args) (item : gmap string value) : gset string :=
  popped_keys args item ∩ dom item.

(** The exception is the failed assertion on the channel selector [key]. *)
Definition selector_assertion (key : string) (e : exn) : Prop :=
  ∃ channels, e = AssertionError (SingleChannelSelector key channels).

(** The two cuts show the same part of the same primary recording. *)
Definition same_view (c c' : Cut) : Prop :=
  cut_id c' = cut_id c ∧ start c' = start c ∧ duration c' = duration c ∧
  channel c' = channel c ∧ recording c' = recording c.

(** The fields popped before the reference stage runs. *)
Definition popped_before_reference (args : Args) (item : gmap string value)
  : gset string :=
  primary_keys args ∪ target_keys args (without (primary_keys args) item).

(** The fields popped before the embedding stage runs. *)
Definition popped_before_embedding (args : Args) (item : gmap string value)
  : gset string :=
  popped_before_reference args item
  ∪ reference_keys args (without (popped_before_reference args item) item).

(** The conversions of [items], one cut for each record. *)
Definition converted (fs : FileSystem) (args : Args)
    (items : list (gmap string value)) (cuts : list Cut) : Prop :=
  Forall2 (λ it c, ∃ rest, convert_item fs args it = Ok (c, rest)) items cuts.

(** The keys of [custom] the converter writes itself: the three
    attributes it sets and the two selectors it attaches. *)
Definition attached_keys : gset string :=
  {["target_recording"; "reference_recording"; "embedding_vector";
    LHOTSE_TARGET_CHANNEL_SELECTOR; LHOTSE_REFERENCE_CHANNEL_SELECTOR]}.

(** * Examples *)

(** A manifest directory with a stereo file, two mono files (one at
    another sampling rate) and an array of shape (3, 4). *)
Definition demo_info (path : string) : option AudioInfo :=
  if String.eqb path "/m/a.wav" then
    Some {| info_channels := 2; info_frames := 16000;
            info_samplerate := 16000; info_duration := 1%float |}
  else if String.eqb path "/m/b.wav" then
    Some {| info_channels := 1; info_frames := 32000;
            info_samplerate := 16000; info_duration := 2%float |}
  else if String.eqb path "/m/c.wav" then
    Some {| info_channels := 1; info_frames := 8000;
            info_samplerate := 8000; info_duration := 1%float |}
  else None.

Definition demo_recording (path : string) : option Recording :=
  match demo_info path with
  | Some i =>
      Some {| rec_id := path;
              sources := [ {| src_type := "file";
                              src_channels := py_range 0 (info_channels i);
                              src_source := path |} ];
              sampling_rate := info_samplerate i;
              num_samples := info_frames i;
              rec_duration := info_duration i;
              channel_ids := py_range 0 (info_channels i) |}
  | None => None
  end.

Definition demo_fs : FileSystem :=
  {| audio_info := demo_info;
     audio_recording := demo_recording;
     numpy_array := λ path,
       if String.eqb path "/m/emb/x.npy"
       then Some {| arr_shape := [3; 4]; arr_data := [] |} else None;
     full_path := λ manifest path, "/m/" +:+ path |}.

(** The same files, probed by a prober that reports another length for
    the second mono file. *)
Definition demo_fs' : FileSystem :=
  {| audio_info := λ path,
       if String.eqb path "/m/b.wav" then
         Some {| info_channels := 1; info_frames := 48000;
                 info_samplerate := 16000; info_duration := 3%float |}
       else demo_info path;
     audio_recording := demo_recording;
     numpy_array := numpy_array demo_fs;
     full_path := full_path demo_fs |}.

Definition demo_args : Args := default_args "/m/manifest.json" "/m/cuts.jsonl".

Definition stereo_info : AudioInfo :=
  {| info_channels := 2; info_frames := 16000;
     info_samplerate := 16000; info_duration := 1%float |}.

Definition mono_info : AudioInfo :=
  {| info_channels := 1; info_frames := 32000;
     info_samplerate := 16000; info_duration := 2%float |}.

Definition slow_info : AudioInfo :=
  {| info_channels := 1; info_frames := 8000;
     info_samplerate := 8000; info_duration := 1%float |}.

(** A mono record with an extra field. *)
Definition speaker_item : gmap string value :=
  list_to_map [("audio_filepath", VStr "b.wav"); ("duration", VFloat 1.5);
               ("speaker", VStr "A")].

(** A mono record with an extra field and a target. *)
Definition speaker_target_item : gmap string value :=
  list_to_map [("audio_filepath", VStr "b.wav"); ("duration", VFloat 1.5);
               ("speaker", VStr "A"); ("target_filepath", VStr "a.wav")].

(** A record whose primary files differ in sampling rate. *)
Definition mismatch_item : gmap string value :=
  list_to_map [("audio_filepath", VList [VStr "a.wav"; VStr "c.wav"]);
               ("duration", VFloat 1)].

(** A mono record with a selector of two channels. *)
Definition mono_two_item : gmap string value :=
  list_to_map [("audio_filepath", VStr "b.wav"); ("duration", VFloat 1);
               ("input_channel_selector", VList [VInt 0; VInt 1])].

(** A stereo record narrowed to its second channel and another one. *)
Definition stereo_item : gmap string value :=
  list_to_map [("audio_filepath", VList [VStr "a.wav"; VStr "b.wav"]);
               ("duration", VFloat 1);
               ("input_channel_selector", VList [VInt 1; VInt 2])].

(** A mono record with a selector of one channel. *)
Definition mono_one_item : gmap string value :=
  list_to_map [("audio_filepath", VStr "b.wav"); ("duration", VFloat 1);
               ("offset", VFloat 0.5);
               ("input_channel_selector", VList [VInt 0])].

(** A plain record with an offset. *)
Definition offset_item : gmap string value :=
  list_to_map [("audio_filepath", VStr "b.wav"); ("duration", VFloat 1);
               ("offset", VFloat 0.5)].

(** A record with a target channel selector and no target. *)
Definition orphan_item : gmap string value :=
  list_to_map [("audio_filepath", VStr "b.wav"); ("duration", VFloat 1);
               ("target_channel_selector", VList [VInt 0; VInt 1; VInt 2])].

(** A record with a target channel selector, no target and a reference. *)
Definition orphan_reference_item : gmap string value :=
  list_to_map [("audio_filepath", VStr "b.wav"); ("duration", VFloat 1);
               ("target_channel_selector", VList [VInt 0; VInt 1; VInt 2]);
               ("reference_filepath", VStr "a.wav")].

(** A record whose primary field is an empty list. *)
Definition empty_list_item : gmap string value :=
  list_to_map [("audio_filepath", VList []); ("duration", VFloat 1)].

(** A mono record with a stereo target narrowed to its second channel. *)
Definition target_item : gmap string value :=
  list_to_map [("audio_filepath", VStr "b.wav"); ("duration", VFloat 1);
               ("target_filepath", VStr "a.wav");
               ("target_channel_selector", VList [VInt 1])].

(** A mono record with a stereo reference narrowed to its first channel
    and an embedding. *)
Definition reference_item : gmap string value :=
  list_to_map [("audio_filepath", VStr "b.wav"); ("duration", VFloat 1);
               ("reference_filepath", VStr "a.wav");
               ("reference_channel_selector", VList [VInt 0]);
               ("embedding_filepath", VStr "emb/x.npy")].

(** A mono record whose input channel selector is null. *)
Definition null_selector_item : gmap string value :=
  list_to_map [("audio_filepath", VStr "b.wav"); ("duration", VFloat 1);
               ("offset", VFloat 0.5);
               ("input_channel_selector", VNone)].

(** A mono record whose input channel selector is a number. *)
Definition number_selector_item : gmap string value :=
  list_to_map [("audio_filepath", VStr "b.wav"); ("duration", VFloat 1);
               ("input_channel_selector", VInt 0)].

(** The recording [demo_fs] holds for the stereo file. *)
Definition stereo_recording : Recording :=
  {| rec_id := "/m/a.wav";
     sources := [ {| src_type := "file"; src_channels := [0; 1];
                     src_source := "/m/a.wav" |} ];
     sampling_rate := 16000;
     num_samples := 16000;
     rec_duration := 1%float;
     channel_ids := [0; 1] |}.

(** The recording [demo_fs] holds for the first mono file. *)
Definition mono_recording : Recording :=
  {| rec_id := "/m/b.wav";
     sources := [ {| src_type := "file"; src_channels := [0];
                     src_source := "/m/b.wav" |} ];
     sampling_rate := 16000;
     num_samples := 32000;
     rec_duration := 2%float;
     channel_ids := [0] |}.

(** The cut and the record a stage has returned; an exception gives the
    cut of the stereo file and the empty record. *)
Definition outcome (r : result (Cut * gmap string value))
  : Cut * gmap string value :=
  match r with
  | Ok x => x
  | Err _ => (to_cut stereo_recording, ∅)
  end.

(** Closes a closed equation by evaluating both sides. *)
Ltac by_vm :=
  match goal with |- ?a = ?b => vm_cast_no_check (@eq_refl _ b) end.

(** * Properties *)

(** ** The two monads *)

Lemma result_bind_Ok {A B : Type} (r : result A) (f : A → result B) (b : B) :
  r ≫= f = Ok b ↔ ∃ a, r = Ok a ∧ f a = Ok b.
Proof.
  destruct r as [a|e]; simpl; split.
  - intros H. by exists a.
  - by intros (a' & [= <-] & H).
  - done.
  - by intros (a' & ? & _).
Qed.

Lemma M_bind_Ok {A B : Type} (m : M A) (f : A → M B) item b item' :
  (m ≫= f) item = Ok (b, item') ↔
  ∃ a item1, m item = Ok (a, item1) ∧ f a item1 = Ok (b, item').
Proof.
  unfold mbind, M_bind. destruct (m item) as [[a item1]|e]; split.
  - intros H. by exists a, item1.
  - by intros (a' & item1' & [= <- <-] & H).
  - done.
  - by intros (? & ? & ? & _).
Qed.

Lemma lift_Ok {A : Type} (r : result A) item a item' :
  lift r item = Ok (a, item') ↔ r = Ok a ∧ item' = item.
Proof.
  unfold lift. destruct r; split; try done.
  - by intros [= -> ->].
  - by intros [[= ->] ->].
  - by intros [? _].
Qed.

Lemma pop_Ok key item v item' :
  pop key item = Ok (v, item') ↔ item !! key = Some v ∧ item' = delete key item.
Proof.
  unfold pop. destruct (item !! key); split; try done.
  - by intros [= -> ->].
  - by intros [[= ->] ->].
  - by intros [? _].
Qed.

Lemma pop_default_Ok key d item v item' :
  pop_default key d item = Ok (v, item') ↔
  v = default d (item !! key) ∧ item' = delete key item.
Proof.
  unfold pop_default. destruct (item !! key) eqn:E; simpl.
  - split; [by intros [= -> ->] | by intros [-> ->]].
  - rewrite delete_id by done. split; [by intros [= -> ->] | by intros [-> ->]].
Qed.

(** ** The loop of [create_recording] *)

Lemma loop_body_Ok fs st path i :
  info fs path = Ok i →
  loop_body fs st (OnePath path) =
  Ok {| cur_channel_idx := cur_channel_idx st + info_channels i;
        loop_sources :=
          loop_sources st ++
          [ {| src_type := "file";
               src_channels :=
                 py_range (cur_channel_idx st)
                          (cur_channel_idx st + info_channels i);
               src_source := path |} ];
        infos := infos st ++ [i];
        p := Some path |}.
Proof. intros H. unfold loop_body. by rewrite H. Qed.

Lemma for_each_loop_body fs ps infs st :
  probed fs ps infs →
  for_each (loop_body fs) (OnePath <$> ps) st =
  Ok {| cur_channel_idx := cur_channel_idx st + total_channels infs;
        loop_sources := loop_sources st ++ expected_sources (cur_channel_idx st) ps infs;
        infos := infos st ++ infs;
        p := match last ps with Some l => Some l | None => p st end |}.
Proof.
  intros H. revert st. induction H as [|path i ps infs Hi _ IH]; intros st.
  - simpl. rewrite Z.add_0_r, !app_nil_r. by destruct st.
  - cbn [fmap list_fmap for_each]. rewrite (loop_body_Ok _ _ _ _ Hi).
    cbn [mbind result_bind]. rewrite IH.
    cbn [cur_channel_idx loop_sources infos p expected_sources total_channels].
    f_equal. f_equal.
    + lia.
    + by rewrite <- app_assoc.
    + by rewrite <- app_assoc.
    + rewrite last_cons. by destruct (last ps).
Qed.

Lemma for_each_loop_body_probed fs ps st st' :
  for_each (loop_body fs) (OnePath <$> ps) st = Ok st' → ∃ infs, probed fs ps infs.
Proof.
  revert st. induction ps as [|path ps IH]; intros st H.
  - exists []. constructor.
  - simpl in H. apply result_bind_Ok in H as (st1 & H1 & H2).
    unfold loop_body in H1. destruct (info fs path) as [i|] eqn:Hi; [|done].
    destruct (IH _ H2) as (infs & His). exists (i :: infs). by constructor.
Qed.

(** What [create_recording] does with a list of paths, once every file
    has been probed. *)
Lemma create_recording_many fs ps infs :
  probed fs ps infs →
  create_recording fs (ManyPaths ps) =
  if same_samplerates infs then
    match last ps with
    | None => Err (UnboundLocalError "p")
    | Some l =>
        id ← str_first l;
        i0 ← list_first infs;
        Ok {| rec_id := id;
              sources := expected_sources 0 ps infs;
              sampling_rate := info_samplerate i0;
              num_samples := info_frames i0;
              rec_duration := info_duration i0;
              channel_ids := py_range 0 (total_channels infs) |}
    end
  else Err (AssertionError (MismatchedSamplingRates (ManyPaths ps))).
Proof.
  intros H. unfold create_recording, ManyPaths.
  rewrite (for_each_loop_body _ _ _ _ H). simpl.
  destruct (same_samplerates infs); simpl; [|done].
  destruct (last ps); simpl; done.
Qed.

Lemma create_recording_many_probed fs ps r :
  create_recording fs (ManyPaths ps) = Ok r → ∃ infs, probed fs ps infs.
Proof.
  unfold create_recording, ManyPaths. intros H.
  apply result_bind_Ok in H as (st & H & _).
  by eapply for_each_loop_body_probed.
Qed.

Lemma probed_length fs ps infs : probed fs ps infs → length ps = length infs.
Proof. apply Forall2_length. Qed.

Lemma probed_inj fs ps infs infs' : probed fs ps infs → probed fs ps infs' → infs = infs'.
Proof.
  intros H. revert infs'. induction H as [|path i ps infs Hi _ IH]; intros infs' H'.
  - by inversion H'.
  - inversion H' as [|? i' ? infs2 Hi' H2]; subst.
    rewrite Hi in Hi'. injection Hi' as <-. f_equal. by apply IH.
Qed.

Lemma expected_sources_length start ps infs :
  length ps = length infs → length (expected_sources start ps infs) = length ps.
Proof.
  revert start infs. induction ps as [|path ps IH]; intros start [|i infs] H;
    simpl in *; try done.
  f_equal. apply IH. lia.
Qed.

Lemma expected_sources_lookup start ps infs k path i :
  ps !! k = Some path → infs !! k = Some i →
  expected_sources start ps infs !! k =
  Some {| src_type := "file";
          src_channels :=
            py_range (start + total_channels (take k infs))
                     (start + total_channels (take (S k) infs));
          src_source := path |}.
Proof.
  revert start infs k. induction ps as [|path0 ps IH]; intros start [|i0 infs] k Hp Hi;
    try done.
  destruct k as [|k]; simpl in *.
  - injection Hp as ->. injection Hi as ->.
    do 3 f_equal; lia.
  - rewrite (IH _ _ _ Hp Hi). do 3 f_equal; lia.
Qed.

(** A run of non-negative blocks laid end to end is one range. *)
Lemma expected_sources_concat start ps infs :
  length ps = length infs →
  Forall (λ i, 0 ≤ info_channels i) infs →
  concat (src_channels <$> expected_sources start ps infs) =
  py_range start (start + total_channels infs).
Proof.
  unfold py_range.
  revert start infs. induction ps as [|path ps IH]; intros start [|i infs] Hlen Hpos;
    simpl in *; try done.
  - by replace (start + 0 - start) with 0 by lia.
  - inversion Hpos as [|? ? Hi Hpos']; subst.
    rewrite IH by (done || lia).
    assert (0 ≤ total_channels infs) as Htot.
    { clear -Hpos'. induction Hpos'; simpl; lia. }
    unfold py_range.
    replace (start + (info_channels i + total_channels infs) - start)
      with (info_channels i + total_channels infs) by lia.
    rewrite seqZ_app by lia. f_equal; f_equal; lia.
Qed.

Lemma same_samplerates_true infs i0 :
  infs !! 0%nat = Some i0 →
  same_samplerates infs = true ↔
  ∀ k i, infs !! k = Some i → info_samplerate i = info_samplerate i0.
Proof.
  destruct infs as [|i0' rest]; [done|]. intros [= ->]. simpl.
  rewrite forallb_forall. split.
  - intros H [|k] i Hk; simpl in Hk; [by injection Hk as ->|].
    apply Z.eqb_eq, H, list_elem_of_In, list_elem_of_lookup. by exists k.
  - intros H i Hi. apply Z.eqb_eq.
    apply list_elem_of_In, list_elem_of_lookup in Hi as [k Hk].
    by apply (H (S k)).
Qed.

Lemma main_loop_abort fs args done cuts item todo e written :
  Forall2 (λ it c, ∃ rest, convert_item fs args it = Ok (c, rest)) done cuts →
  convert_item fs args item = Err e →
  main_loop fs args (done ++ item :: todo) written = (written ++ cuts, Some e).
Proof.
  intros H He. revert written.
  induction H as [|it c done cuts [rest Hc] _ IH]; intros written; simpl.
  - by rewrite He, app_nil_r.
  - rewrite Hc, IH. by rewrite <- app_assoc.
Qed.

Lemma main_loop_all fs args items cuts written :
  Forall2 (λ it c, ∃ rest, convert_item fs args it = Ok (c, rest)) items cuts →
  main_loop fs args items written = (written ++ cuts, None).
Proof.
  intros H. revert written.
  induction H as [|it c items cuts [rest Hc] _ IH]; intros written; simpl.
  - by rewrite app_nil_r.
  - rewrite Hc, IH. by rewrite <- app_assoc.
Qed.

(** The conversion of a record whose primary recording cannot be built
    raises what [create_recording] raises. *)
Lemma convert_item_primary_Err fs args item v path e :
  item !! input_key args = Some v →
  get_full_path fs v (input args) = Ok path →
  create_recording fs path = Err e →
  convert_item fs args item = Err e.
Proof.
  intros Hv Hp He. unfold convert_item, make_cut, mbind, M_bind, pop, lift.
  by rewrite Hv, Hp, He.
Qed.

(** C2: in a recording built from a list of files with channel counts
    c_1..c_n, the k-th source holds the indices from c_1+...+c_(k-1) up
    to, not including, c_1+...+c_k, in list order; the recording's
    channel ids are the indices below c_1+...+c_n; and, the counts being
    non-negative, the blocks laid end to end are exactly the channel
    ids, none missing and none twice. *)
Theorem create_recording_channel_blocks fs ps infs r :
  probed fs ps infs →
  create_recording fs (ManyPaths ps) = Ok r →
  ps ≠ [] ∧
  length (sources r) = length ps ∧
  (∀ k path i, ps !! k = Some path → infs !! k = Some i →
     sources r !! k =
     Some {| src_type := "file";
             src_channels := py_range (total_channels (take k infs))
                                      (total_channels (take (S k) infs));
             src_source := path |}) ∧
  channel_ids r = py_range 0 (total_channels infs) ∧
  (Forall (λ i, 0 ≤ info_channels i) infs →
     concat (src_channels <$> sources r) = channel_ids r ∧
     NoDup (channel_ids r)).
Proof.
  intros Hprobed Hr. rewrite (create_recording_many _ _ _ Hprobed) in Hr.
  destruct (same_samplerates infs); [|done].
  destruct (last ps) as [l|] eqn:Hlast; [|done].
  apply result_bind_Ok in Hr as (id & _ & Hr).
  apply result_bind_Ok in Hr as (i0 & _ & Hr).
  injection Hr as <-. simpl.
  pose proof (probed_length _ _ _ Hprobed) as Hlen.
  split; [by intros ->|].
  split; [by apply expected_sources_length|].
  split.
  { intros k path i Hp Hi.
    by rewrite (expected_sources_lookup 0 _ _ _ _ _ Hp Hi). }
  split; [done|].
  intros Hpos. split.
  - by rewrite expected_sources_concat.
  - apply NoDup_seqZ.
Qed.

(** C3: when a probed file's sampling rate differs from the first
    file's, building the recording fails with the assertion on
    mismatched sampling rates, a SchemaViolation, and a run that reaches
    a record with these primary paths stops there with that error,
    having written only the cuts of the records before it; when all the
    sampling rates equal the first one, no SchemaViolation is raised. *)
Theorem create_recording_sampling_rates fs args ps infs i0 :
  probed fs ps infs →
  infs !! 0%nat = Some i0 →
  ((∃ k i, infs !! k = Some i ∧ info_samplerate i ≠ info_samplerate i0) →
     create_recording fs (ManyPaths ps) =
       Err (AssertionError (MismatchedSamplingRates (ManyPaths ps))) ∧
     SchemaViolation (AssertionError (MismatchedSamplingRates (ManyPaths ps))) ∧
     ∀ done cuts item v todo,
       Forall2 (λ it c, ∃ rest, convert_item fs args it = Ok (c, rest)) done cuts →
       item !! input_key args = Some v →
       get_full_path fs v (input args) = Ok (ManyPaths ps) →
       main fs args (done ++ item :: todo) =
       (cuts, Some (AssertionError (MismatchedSamplingRates (ManyPaths ps))))) ∧
  ((∀ k i, infs !! k = Some i → info_samplerate i = info_samplerate i0) →
     ∀ e, create_recording fs (ManyPaths ps) = Err e → ¬ SchemaViolation e).
Proof.
  intros Hprobed H0.
  pose proof (create_recording_many _ _ _ Hprobed) as Hcr.
  pose proof (same_samplerates_true _ _ H0) as Hss.
  split.
  - intros (k & i & Hk & Hne).
    destruct (same_samplerates infs) eqn:E.
    { exfalso. apply Hne. by apply (proj1 Hss eq_refl k). }
    split; [done|]. split; [done|].
    intros done cuts item v todo Hdone Hv Hp.
    unfold main. erewrite main_loop_abort; [done|done|].
    by eapply convert_item_primary_Err.
  - intros Hall e He. apply Hss in Hall. rewrite Hall in Hcr.
    rewrite Hcr in He. clear Hcr.
    destruct (last ps) as [[|c l]|]; simpl in He.
    + injection He as <-. by intros [].
    + destruct infs; simpl in He; [|done]. injection He as <-. by intros [].
    + injection He as <-. by intros [].
Qed.

Lemma same_layout_total_channels infs infs' :
  Forall2 same_layout infs infs' → total_channels infs = total_channels infs'.
Proof. induction 1 as [|i j ? ? [Hc _] _ IH]; simpl; congruence. Qed.

Lemma same_layout_expected_sources start ps infs infs' :
  Forall2 same_layout infs infs' →
  expected_sources start ps infs = expected_sources start ps infs'.
Proof.
  intros H. revert start ps.
  induction H as [|i j ? ? [Hc _] _ IH]; intros start [|path ps]; simpl; try done.
  by rewrite Hc, IH.
Qed.

Lemma same_layout_forallb z infs infs' :
  Forall2 same_layout infs infs' →
  forallb (λ i, info_samplerate i =? z) infs =
  forallb (λ i, info_samplerate i =? z) infs'.
Proof. induction 1 as [|i j ? ? [_ Hs] _ IH]; simpl; congruence. Qed.

Lemma probed_same_layout fs fs' ps infs :
  probed fs ps infs →
  (∀ path i, path ∈ ps → info fs path = Ok i →
     ∃ j, info fs' path = Ok j ∧ same_layout i j) →
  ∃ infs', probed fs' ps infs' ∧ Forall2 same_layout infs infs'.
Proof.
  induction 1 as [|path i ps infs Hi _ IH]; intros Hsame.
  - exists []. split; constructor.
  - destruct (Hsame path i) as (j & Hj & Hij); [left|done|].
    destruct IH as (infs' & Hp' & Hl').
    { intros path' i' Hin. apply Hsame. by right. }
    exists (j :: infs'). split; by constructor.
Qed.

(** C7: the sampling rate, the sample count and the duration of a
    recording built from a list of files are those of the first file;
    of the other files only the channel count and the sampling rate are
    looked at, so a prober that reports other sample counts and
    durations for them leads to the same recording. *)
Theorem create_recording_first_file fs fs' path0 rest i0 r :
  info fs path0 = Ok i0 →
  info fs' path0 = Ok i0 →
  (∀ path i, path ∈ rest → info fs path = Ok i →
     ∃ j, info fs' path = Ok j ∧ same_layout i j) →
  create_recording fs (ManyPaths (path0 :: rest)) = Ok r →
  sampling_rate r = info_samplerate i0 ∧
  num_samples r = info_frames i0 ∧
  rec_duration r = info_duration i0 ∧
  create_recording fs' (ManyPaths (path0 :: rest)) = Ok r.
Proof.
  intros H0 H0' Hsame Hr.
  destruct (create_recording_many_probed _ _ _ Hr) as (infs & Hprobed).
  inversion Hprobed as [|? i ? infs_rest Hi Hrest]; subst.
  rewrite H0 in Hi. injection Hi as <-.
  destruct (probed_same_layout _ fs' _ _ Hrest Hsame) as (infs' & Hrest' & Hl).
  assert (probed fs' (path0 :: rest) (i0 :: infs')) as Hprobed'
    by by constructor.
  rewrite (create_recording_many _ _ _ Hprobed) in Hr.
  rewrite (create_recording_many _ _ _ Hprobed').
  simpl same_samplerates in *.
  rewrite <- (same_layout_forallb _ _ _ Hl).
  destruct (forallb _ infs_rest); [|done].
  destruct (last (path0 :: rest)) as [l|]; [|done].
  destruct (str_first l) as [id|]; [|done]. simpl in *.
  injection Hr as <-. simpl.
  rewrite (same_layout_total_channels _ _ Hl).
  rewrite (same_layout_expected_sources _ _ _ _ Hl).
  done.
Qed.

(** C8: the id of a recording built from a list of files is the
    one-character string made of the first character of the last path
    of the list; it is that path itself only when the path is a single
    character. *)
Theorem create_recording_id fs ps r :
  create_recording fs (ManyPaths ps) = Ok r →
  ∃ l c tl,
    last ps = Some l ∧ l = String c tl ∧
    rec_id r = String c EmptyString ∧
    (rec_id r = l ↔ String.length l = 1%nat).
Proof.
  intros Hr.
  destruct (create_recording_many_probed _ _ _ Hr) as (infs & Hprobed).
  rewrite (create_recording_many _ _ _ Hprobed) in Hr.
  destruct (same_samplerates infs); [|done].
  destruct (last ps) as [[|c tl]|]; try done.
  simpl in Hr. destruct (list_first infs); [|done]. simpl in Hr.
  injection Hr as <-. exists (String c tl), c, tl. simpl.
  repeat split; try done.
  - by intros [= <-].
  - intros [= H]. by destruct tl.
Qed.

(** ** [create_array] *)

Lemma substring_all s : String.substring 0 (String.length s) s = s.
Proof. induction s as [|c s IH]; simpl; [done|by rewrite IH]. Qed.

Lemma append_String c s t : String c s +:+ t = String c (s +:+ t).
Proof. reflexivity. Qed.

Lemma substring_split n s :
  (n ≤ String.length s)%nat →
  String.substring 0 n s +:+ String.substring n (String.length s - n) s = s.
Proof.
  revert s. induction n as [|n IH]; intros s Hn.
  - rewrite Nat.sub_0_r, substring_all. by destruct s.
  - destruct s as [|c s]; simpl in *; [lia|].
    rewrite append_String, IH by lia. done.
Qed.

Lemma substring_0_length n s :
  (n ≤ String.length s)%nat → String.length (String.substring 0 n s) = n.
Proof.
  revert s. induction n as [|n IH]; intros [|c s] Hn; simpl in *; try done; try lia.
  rewrite IH; lia.
Qed.

Lemma get_substring_0 k n s :
  (k < n)%nat → String.get k (String.substring 0 n s) = String.get k s.
Proof.
  revert k s. induction n as [|n IH]; intros k [|c s] Hk; simpl; try done; try lia.
  destruct k as [|k]; [done|]. apply IH. lia.
Qed.

(** The text after the last slash holds no slash, and what comes before
    it is empty or ends with a slash. *)
Lemma after_last_slash_spec s :
  (after_last_slash s ≤ String.length s)%nat ∧
  has_slash (String.substring (after_last_slash s)
               (String.length s - after_last_slash s) s) = false ∧
  (after_last_slash s = 0%nat ∨
   String.get (after_last_slash s - 1) s = Some "/"%char).
Proof.
  induction s as [|c s (Hle & Hno & Hlast)]; [by auto|].
  cbn [after_last_slash String.length].
  destruct (after_last_slash s) as [|n] eqn:E.
  - rewrite Nat.sub_0_r, substring_all in Hno.
    destruct (Ascii.eqb c "/") eqn:Ec.
    + apply Ascii.eqb_eq in Ec as ->. simpl.
      rewrite Nat.sub_0_r, substring_all. repeat split; [lia|done|by right].
    + simpl. rewrite substring_all, Ec, Hno. repeat split; [lia|by left].
  - split; [lia|]. split; [done|]. right.
    destruct Hlast as [|Hlast]; [done|].
    simpl in *. by rewrite Nat.sub_0_r in Hlast.
Qed.

(** [attach_embedding] without the monad. *)
Lemma attach_embedding_eq fs args cut item :
  attach_embedding fs args cut item =
  match item !! embedding_key args with
  | None => Ok (cut, item)
  | Some v =>
      path ← get_full_path fs v (input args);
      embedding ← create_array fs path;
      Ok (set_embedding_vector cut embedding, delete (embedding_key args) item)
  end.
Proof.
  unfold attach_embedding, mbind, M_bind, result_bind, pop, lift, contains,
    mret, M_ret.
  destruct (item !! embedding_key args) as [v|] eqn:E.
  2:{ rewrite bool_decide_false; [done|]. by intros [? ?]. }
  rewrite bool_decide_true by done. rewrite E.
  destruct (get_full_path fs v (input args)) as [path|]; [|done].
  by destruct (create_array fs path).
Qed.

(** C5: an embedding path that does not end in [.npy] fails the
    assertion of [create_array], an UnsupportedFormat; one that does,
    naming a readable array, yields an Array of storage type
    [numpy_files] whose shape is the shape of the array on disk, whose
    storage key is the base name of the path (the text after its last
    slash) and whose storage path is the directory part; none of the
    array's elements enters the Array.  In a record, the path is the
    full path of the embedding field, and the field is popped. *)
Theorem create_array_spec fs path :
  (endswith path ".npy" = false →
     create_array fs (OnePath path) = Err (AssertionError (OnlyNumpySupported path)) ∧
     UnsupportedFormat (AssertionError (OnlyNumpySupported path))) ∧
  (endswith path ".npy" = true →
     ∀ arr, numpy_array fs path = Some arr →
       ∃ a prefix,
         create_array fs (OnePath path) = Ok a ∧
         storage_type a = "numpy_files" ∧
         shape a = arr_shape arr ∧
         (storage_path a, storage_key a) = os_path_split path ∧
         path = prefix +:+ storage_key a ∧
         has_slash (storage_key a) = false ∧
         (prefix = "" ∨ String.get (String.length prefix - 1) prefix = Some "/"%char) ∧
         (storage_path a = rstrip_slash prefix ∨ storage_path a = prefix)) ∧
  (∀ args cut item p,
     item !! embedding_key args = Some (VStr p) →
     path = full_path fs (input args) p →
     attach_embedding fs args cut item =
     match create_array fs (OnePath path) with
     | Ok a => Ok (set_embedding_vector cut a, delete (embedding_key args) item)
     | Err e => Err e
     end).
Proof.
  split; [|split].
  - intros H. unfold create_array, py_assert. by rewrite H.
  - intros H arr Harr. unfold create_array, py_assert, np_load.
    rewrite H, Harr. simpl.
    destruct (after_last_slash_spec path) as (Hle & Hno & Hlast).
    pose proof (substring_split _ _ Hle) as Hsplit.
    unfold os_path_split.
    set (i := after_last_slash path) in *.
    set (prefix := String.substring 0 i path) in *.
    set (tail := String.substring i (String.length path - i) path) in *.
    eexists. exists prefix. split; [reflexivity|]. cbn [storage_type storage_path storage_key shape].
    split; [done|]. split; [done|]. split; [done|]. split; [done|]. split; [done|].
    split.
    + destruct (decide (i = 0%nat)) as [Hz|Hz].
      * left. unfold prefix. rewrite Hz. by destruct path.
      * right. destruct Hlast as [Hi|Hi]; [done|].
        unfold prefix. rewrite substring_0_length by done.
        rewrite get_substring_0 by lia. done.
    + destruct (rstrip_slash prefix); auto.
  - intros args cut item p Hp ->. rewrite attach_embedding_eq, Hp.
    cbn [get_full_path mbind result_bind].
    by destruct (create_array fs (OnePath _)).
Qed.

(** ** The stages of [convert_item] without the monad *)

Section stages.
Variable fs : FileSystem.
Variable args : Args.

Lemma make_cut_eq item :
  make_cut fs args item =
  match item !! input_key args with
  | None => Err (KeyError (input_key args))
  | Some v =>
      path ← get_full_path fs v (input args);
      r ← create_recording fs path;
      let item1 := delete (input_key args) item in
      match item1 !! "duration" with
      | None => Err (KeyError "duration")
      | Some d =>
          let item2 := delete "duration" item1 in
          Ok (truncate (to_cut r) d (default (VFloat 0) (item2 !! "offset")),
              delete "offset" item2)
      end
  end.
Proof.
  unfold make_cut. unfold_M. cbv zeta.
  destruct (item !! input_key args) as [v|]; [|done].
  destruct (get_full_path fs v (input args)) as [path|]; [|done].
  destruct (create_recording fs path) as [r|]; [|done].
  destruct (delete (input_key args) item !! "duration") as [d|]; [|done].
  destruct (delete "duration" (delete (input_key args) item) !! "offset") eqn:E;
    simpl; [done|].
  by rewrite (delete_id _ "offset").
Qed.

Lemma select_input_channels_eq cut item :
  select_input_channels cut item =
  let channels := default VNone (item !! INPUT_CHANNEL_SELECTOR) in
  let item' := delete INPUT_CHANNEL_SELECTOR item in
  if is_not_None channels then
    if (cut_num_channels cut =? 1)%nat then
      n ← py_len channels;
      _ ← py_assert (n =? 1)%nat
            (SingleChannelSelector INPUT_CHANNEL_SELECTOR channels);
      Ok (cut, item')
    else Ok (with_channels cut channels, item')
  else Ok (cut, item').
Proof.
  unfold select_input_channels. unfold_M. cbv zeta.
  destruct (item !! INPUT_CHANNEL_SELECTOR) as [channels|] eqn:E; cbn [default from_option id].
  - destruct (is_not_None channels); [|done].
    destruct (cut_num_channels cut =? 1)%nat; [|done].
    destruct (py_len channels) as [n|]; [|done].
    by destruct (py_assert _ _) as [[]|].
  - cbn [is_not_None]. by rewrite delete_id.
Qed.

Lemma attach_target_eq cut item :
  attach_target fs args cut item =
  match item !! target_key args with
  | None => Ok (cut, item)
  | Some v =>
      path ← get_full_path fs v (input args);
      target ← create_recording fs path;
      let cut := set_target_recording cut target in
      let item1 := delete (target_key args) item in
      let channels := default VNone (item1 !! TARGET_CHANNEL_SELECTOR) in
      let item2 := delete TARGET_CHANNEL_SELECTOR item1 in
      if is_not_None channels then
        if (rec_num_channels target =? 1)%nat then
          n ← py_len channels;
          _ ← py_assert (n =? 1)%nat
                (SingleChannelSelector TARGET_CHANNEL_SELECTOR channels);
          Ok (cut, item2)
        else Ok (with_custom cut LHOTSE_TARGET_CHANNEL_SELECTOR channels, item2)
      else Ok (cut, item2)
  end.
Proof.
  unfold attach_target. unfold_M. cbv zeta.
  destruct (item !! target_key args) as [v|] eqn:E.
  2:{ rewrite bool_decide_false; [done|]. by intros [? ?]. }
  rewrite bool_decide_true by done. rewrite E.
  destruct (get_full_path fs v (input args)) as [path|]; [|done].
  destruct (create_recording fs path) as [target|]; [|done].
  destruct (delete (target_key args) item !! TARGET_CHANNEL_SELECTOR)
    as [channels|] eqn:E'; cbn [default from_option id].
  - destruct (is_not_None channels); [|done].
    destruct (rec_num_channels target =? 1)%nat; [|done].
    destruct (py_len channels) as [n|]; [|done].
    by destruct (py_assert _ _) as [[]|].
  - cbn [is_not_None]. by rewrite (delete_id _ TARGET_CHANNEL_SELECTOR).
Qed.

Lemma attach_reference_eq cut item :
  attach_reference fs args cut item =
  match item !! reference_key args with
  | None => Ok (cut, item)
  | Some v =>
      path ← get_full_path fs v (input args);
      reference ← create_recording fs path;
      let cut := set_reference_recording cut reference in
      let item1 := delete (reference_key args) item in
      let channels := default VNone (item1 !! REFERENCE_CHANNEL_SELECTOR) in
      let item2 := delete REFERENCE_CHANNEL_SELECTOR item1 in
      if is_not_None channels then
        if (rec_num_channels reference =? 1)%nat then
          n ← py_len channels;
          _ ← py_assert (n =? 1)%nat
                (SingleChannelSelector REFERENCE_CHANNEL_SELECTOR channels);
          Ok (cut, item2)
        else Ok (with_custom cut LHOTSE_REFERENCE_CHANNEL_SELECTOR channels, item2)
      else Ok (cut, item2)
  end.
Proof.
  unfold attach_reference. unfold_M. cbv zeta.
  destruct (item !! reference_key args) as [v|] eqn:E.
  2:{ rewrite bool_decide_false; [done|]. by intros [? ?]. }
  rewrite bool_decide_true by done. rewrite E.
  destruct (get_full_path fs v (input args)) as [path|]; [|done].
  destruct (create_recording fs path) as [reference|]; [|done].
  destruct (delete (reference_key args) item !! REFERENCE_CHANNEL_SELECTOR)
    as [channels|] eqn:E'; cbn [default from_option id].
  - destruct (is_not_None channels); [|done].
    destruct (rec_num_channels reference =? 1)%nat; [|done].
    destruct (py_len channels) as [n|]; [|done].
    by destruct (py_assert _ _) as [[]|].
  - cbn [is_not_None]. by rewrite (delete_id _ REFERENCE_CHANNEL_SELECTOR).
Qed.

Lemma copy_remaining_eq cut item :
  copy_remaining cut item =
  if bool_decide (item ≠ ∅) then
    match custom cut with
    | None => Err (AttributeError "update")
    | Some m => Ok (set_custom cut (Some ((CValue <$> item) ∪ m)), item)
    end
  else Ok (cut, item).
Proof.
  unfold copy_remaining, custom_update, mbind, M_bind, get_item, lift, mret, M_ret.
  case_bool_decide as H; [|done]. by destruct (custom cut).
Qed.

(** Line 138 leaves the record and the view alone, and adds the fields
    of the record to the entries of [custom]. *)
Lemma copy_remaining_Ok c item cut rest :
  copy_remaining c item = Ok (cut, rest) →
  rest = item ∧ same_view c cut ∧
  custom_map cut = (CValue <$> item) ∪ custom_map c ∧
  (item = ∅ → cut = c) ∧
  (item ≠ ∅ → is_Some (custom c)).
Proof.
  rewrite copy_remaining_eq. case_bool_decide as H.
  - destruct (custom c) as [m|] eqn:E; [|done]. intros [= <- <-].
    unfold custom_map. cbn [set_custom custom]. rewrite E. by eauto 10.
  - subst item. intros [= <- <-].
    rewrite fmap_empty, (left_id_L ∅ (∪)). by eauto 10.
Qed.

Lemma convert_item_eq item :
  convert_item fs args item =
  match make_cut fs args item with
  | Err e => Err e
  | Ok (cut, item) =>
  match select_input_channels cut item with
  | Err e => Err e
  | Ok (cut, item) =>
  match attach_target fs args cut item with
  | Err e => Err e
  | Ok (cut, item) =>
  match attach_reference fs args cut item with
  | Err e => Err e
  | Ok (cut, item) =>
  match attach_embedding fs args cut item with
  | Err e => Err e
  | Ok (cut, item) => copy_remaining cut item
  end end end end end.
Proof.
  unfold convert_item, mbind, M_bind.
  destruct (make_cut fs args item) as [[c1 i1]|]; [|done].
  destruct (select_input_channels c1 i1) as [[c2 i2]|]; [|done].
  destruct (attach_target fs args c2 i2) as [[c3 i3]|]; [|done].
  destruct (attach_reference fs args c3 i3) as [[c4 i4]|]; [|done].
  by destruct (attach_embedding fs args c4 i4) as [[c5 i5]|].
Qed.

End stages.

(** ** Which fields a conversion pops *)

Lemma lookup_without K item k :
  without K item !! k = if decide (k ∈ K) then None else item !! k.
Proof.
  unfold without. destruct (decide (k ∈ K)) as [Hk|Hk].
  - apply map_lookup_filter_None. right. intros v _. simpl. by intros ?.
  - destruct (item !! k) as [v|] eqn:E.
    + by apply map_lookup_filter_Some.
    + apply map_lookup_filter_None. by left.
Qed.

Lemma delete_without k item : delete k item = without {[k]} item.
Proof.
  apply map_eq. intros j. rewrite lookup_without, lookup_delete.
  destruct (decide (k = j)) as [->|Hne].
  - rewrite decide_True; [done|set_solver].
  - rewrite decide_False; [done|set_solver].
Qed.

Lemma without_without K1 K2 item :
  without K2 (without K1 item) = without (K1 ∪ K2) item.
Proof.
  apply map_eq. intros j. rewrite !lookup_without.
  destruct (decide (j ∈ K1)), (decide (j ∈ K2)).
  all: try (rewrite decide_True; [done|set_solver]).
  rewrite decide_False; [done|set_solver].
Qed.

Lemma without_empty item : without ∅ item = item.
Proof.
  apply map_eq. intros j. rewrite lookup_without. by rewrite decide_False.
Qed.

Lemma dom_without K item : dom (without K item) = dom item ∖ K.
Proof.
  apply set_eq. intros j.
  rewrite elem_of_difference, !elem_of_dom, lookup_without.
  destruct (decide (j ∈ K)); [|naive_solver].
  split; [by intros [? ?]|naive_solver].
Qed.

Lemma lookup_without_Some K item k v :
  without K item !! k = Some v ↔ (k ∉ K) ∧ item !! k = Some v.
Proof. rewrite lookup_without. destruct (decide (k ∈ K)); naive_solver. Qed.

Section frames.
Variable fs : FileSystem.
Variable args : Args.

Lemma make_cut_frame item c item' :
  make_cut fs args item = Ok (c, item') →
  item' = without {[input_key args; "duration"; "offset"]} item.
Proof.
  rewrite make_cut_eq. unfold mbind, result_bind. cbv zeta.
  intros H. repeat case_match; simplify_eq.
  rewrite !delete_without, !without_without. f_equal. set_solver.
Qed.

Lemma select_input_channels_frame cut item c item' :
  select_input_channels cut item = Ok (c, item') →
  item' = without {[INPUT_CHANNEL_SELECTOR]} item.
Proof.
  rewrite select_input_channels_eq. unfold mbind, result_bind. cbv zeta.
  intros H. repeat case_match; simplify_eq; by rewrite delete_without.
Qed.

Lemma attach_target_frame cut item c item' :
  attach_target fs args cut item = Ok (c, item') →
  item' = without (target_keys args item) item.
Proof.
  rewrite attach_target_eq. unfold mbind, result_bind, target_keys. cbv zeta.
  intros H. destruct (item !! target_key args) as [v|] eqn:E.
  - rewrite decide_True by (apply elem_of_dom; eauto).
    repeat case_match; simplify_eq;
      rewrite !delete_without, !without_without; f_equal.
  - rewrite decide_False by (by rewrite not_elem_of_dom).
    injection H as <- <-. by rewrite without_empty.
Qed.

Lemma attach_reference_frame cut item c item' :
  attach_reference fs args cut item = Ok (c, item') →
  item' = without (reference_keys args item) item.
Proof.
  rewrite attach_reference_eq. unfold mbind, result_bind, reference_keys. cbv zeta.
  intros H. destruct (item !! reference_key args) as [v|] eqn:E.
  - rewrite decide_True by (apply elem_of_dom; eauto).
    repeat case_match; simplify_eq;
      rewrite !delete_without, !without_without; f_equal.
  - rewrite decide_False by (by rewrite not_elem_of_dom).
    injection H as <- <-. by rewrite without_empty.
Qed.

Lemma attach_embedding_frame cut item c item' :
  attach_embedding fs args cut item = Ok (c, item') →
  item' = without (embedding_keys args item) item.
Proof.
  rewrite attach_embedding_eq. unfold mbind, result_bind, embedding_keys.
  intros H. destruct (item !! embedding_key args) as [v|] eqn:E.
  - rewrite decide_True by (apply elem_of_dom; eauto).
    repeat case_match; simplify_eq. by rewrite delete_without.
  - rewrite decide_False by (by rewrite not_elem_of_dom).
    injection H as <- <-. by rewrite without_empty.
Qed.

(** A successful conversion, stage by stage. *)
Lemma convert_item_Ok item cut rest :
  convert_item fs args item = Ok (cut, rest) ↔
  ∃ c1 i1 c2 i2 c3 i3 c4 i4 c5,
    make_cut fs args item = Ok (c1, i1) ∧
    select_input_channels c1 i1 = Ok (c2, i2) ∧
    attach_target fs args c2 i2 = Ok (c3, i3) ∧
    attach_reference fs args c3 i3 = Ok (c4, i4) ∧
    attach_embedding fs args c4 i4 = Ok (c5, rest) ∧
    copy_remaining c5 rest = Ok (cut, rest).
Proof.
  rewrite convert_item_eq. split.
  - intros H.
    destruct (make_cut fs args item) as [[c1 i1]|] eqn:H1; [|done].
    destruct (select_input_channels c1 i1) as [[c2 i2]|] eqn:H2; [|done].
    destruct (attach_target fs args c2 i2) as [[c3 i3]|] eqn:H3; [|done].
    destruct (attach_reference fs args c3 i3) as [[c4 i4]|] eqn:H4; [|done].
    destruct (attach_embedding fs args c4 i4) as [[c5 i5]|] eqn:H5; [|done].
    destruct (copy_remaining_Ok _ _ _ _ H) as [-> _].
    exists c1, i1, c2, i2, c3, i3, c4, i4, c5. by repeat split.
  - intros (c1&i1&c2&i2&c3&i3&c4&i4&c5&H1&H2&H3&H4&H5&H6).
    by rewrite H1, H2, H3, H4, H5.
Qed.

Lemma convert_item_frame item cut rest :
  convert_item fs args item = Ok (cut, rest) →
  rest = without (popped_keys args item) item.
Proof.
  intros (c1&i1&c2&i2&c3&i3&c4&i4&c5&H1&H2&H3&H4&H5&_)%convert_item_Ok.
  apply make_cut_frame in H1. apply select_input_channels_frame in H2.
  apply attach_target_frame in H3. apply attach_reference_frame in H4.
  apply attach_embedding_frame in H5.
  assert (i2 = without (primary_keys args) item) as Hi2.
  { by rewrite H2, H1, without_without. }
  unfold popped_keys. cbv zeta.
  rewrite <- Hi2.
  assert (i3 = without (primary_keys args ∪ target_keys args i2) item) as Hi3.
  { rewrite <- without_without. by rewrite <- Hi2. }
  rewrite <- Hi3.
  assert (i4 = without (primary_keys args ∪ target_keys args i2
                        ∪ reference_keys args i3) item) as Hi4.
  { rewrite <- without_without. by rewrite <- Hi3. }
  rewrite <- Hi4.
  rewrite <- without_without. by rewrite <- Hi4.
Qed.

End frames.

(** ** What each stage does to the cut *)

Section effects.
Variable fs : FileSystem.
Variable args : Args.

Lemma make_cut_fresh item c item1 :
  make_cut fs args item = Ok (c, item1) →
  custom c = None ∧ cut_id c = rec_id (recording c).
Proof.
  rewrite make_cut_eq. unfold mbind, result_bind. cbv zeta.
  intros H. repeat case_match; simplify_eq. done.
Qed.

Lemma select_input_channels_effect cut item c item' :
  select_input_channels cut item = Ok (c, item') →
  cut_id c = cut_id cut ∧ recording c = recording cut ∧ custom c = custom cut.
Proof.
  rewrite select_input_channels_eq. unfold mbind, result_bind. cbv zeta.
  intros H. repeat case_match; simplify_eq; done.
Qed.

Lemma attach_target_effect cut item c item' :
  attach_target fs args cut item = Ok (c, item') →
  match item !! target_key args with
  | None => c = cut
  | Some _ =>
      ∃ target,
        custom c =
          Some (<["target_recording" := CRecording target]> (custom_map cut)) ∨
        ∃ channels,
          custom c =
            Some (<[LHOTSE_TARGET_CHANNEL_SELECTOR := CValue channels]>
                    (<["target_recording" := CRecording target]> (custom_map cut)))
  end.
Proof.
  rewrite attach_target_eq. unfold mbind, result_bind. cbv zeta.
  intros H. destruct (item !! target_key args) as [v|].
  - repeat case_match; simplify_eq; eexists;
      solve [by left | right; by eexists].
  - by injection H as <- <-.
Qed.

Lemma attach_reference_effect cut item c item' :
  attach_reference fs args cut item = Ok (c, item') →
  match item !! reference_key args with
  | None => c = cut
  | Some _ =>
      ∃ reference,
        custom c =
          Some (<["reference_recording" := CRecording reference]> (custom_map cut)) ∨
        ∃ channels,
          custom c =
            Some (<[LHOTSE_REFERENCE_CHANNEL_SELECTOR := CValue channels]>
                    (<["reference_recording" := CRecording reference]>
                       (custom_map cut)))
  end.
Proof.
  rewrite attach_reference_eq. unfold mbind, result_bind. cbv zeta.
  intros H. destruct (item !! reference_key args) as [v|].
  - repeat case_match; simplify_eq; eexists;
      solve [by left | right; by eexists].
  - by injection H as <- <-.
Qed.

Lemma attach_embedding_effect cut item c item' :
  attach_embedding fs args cut item = Ok (c, item') →
  match item !! embedding_key args with
  | None => c = cut
  | Some _ =>
      ∃ embedding,
        custom c = Some (<["embedding_vector" := CArray embedding]> (custom_map cut))
  end.
Proof.
  rewrite attach_embedding_eq. unfold mbind, result_bind.
  intros H. destruct (item !! embedding_key args) as [v|].
  - repeat case_match; simplify_eq. by eexists.
  - by injection H as <- <-.
Qed.

Lemma attach_reference_keeps cut item c item' k :
  attach_reference fs args cut item = Ok (c, item') →
  k ≠ "reference_recording" → k ≠ LHOTSE_REFERENCE_CHANNEL_SELECTOR →
  custom_map c !! k = custom_map cut !! k.
Proof.
  intros H Hk Hk'. apply attach_reference_effect in H.
  destruct (item !! reference_key args); [|by subst c].
  destruct H as [reference [H|[channels H]]]; unfold custom_map at 1;
    rewrite H; cbn [default from_option id];
    by rewrite ?(lookup_insert_ne _ _ k) by done.
Qed.

Lemma attach_embedding_keeps cut item c item' k :
  attach_embedding fs args cut item = Ok (c, item') →
  k ≠ "embedding_vector" →
  custom_map c !! k = custom_map cut !! k.
Proof.
  intros H Hk. apply attach_embedding_effect in H.
  destruct (item !! embedding_key args); [|by subst c].
  destruct H as [embedding H]. unfold custom_map at 1.
  rewrite H. cbn [default from_option id]. by rewrite lookup_insert_ne.
Qed.

End effects.

(** A successful conversion, with the record as each stage finds it. *)
Lemma convert_item_stages fs args item cut rest :
  convert_item fs args item = Ok (cut, rest) →
  ∃ c1 i1 c2 c3 c4 c5,
    make_cut fs args item = Ok (c1, i1) ∧
    select_input_channels c1 i1 = Ok (c2, without (primary_keys args) item) ∧
    attach_target fs args c2 (without (primary_keys args) item) =
      Ok (c3, without (popped_before_reference args item) item) ∧
    attach_reference fs args c3 (without (popped_before_reference args item) item) =
      Ok (c4, without (popped_before_embedding args item) item) ∧
    attach_embedding fs args c4 (without (popped_before_embedding args item) item) =
      Ok (c5, rest) ∧
    copy_remaining c5 rest = Ok (cut, rest).
Proof.
  intros (c1&i1&c2&i2&c3&i3&c4&i4&c5&H1&H2&H3&H4&H5&H6)%convert_item_Ok.
  pose proof (make_cut_frame _ _ _ _ _ H1) as F1.
  pose proof (select_input_channels_frame _ _ _ _ H2) as F2.
  pose proof (attach_target_frame _ _ _ _ _ _ H3) as F3.
  pose proof (attach_reference_frame _ _ _ _ _ _ H4) as F4.
  assert (i2 = without (primary_keys args) item) as ->.
  { by rewrite F2, F1, without_without. }
  assert (i3 = without (popped_before_reference args item) item) as ->.
  { by rewrite F3, without_without. }
  assert (i4 = without (popped_before_embedding args item) item) as ->.
  { by rewrite F4, without_without. }
  by exists c1, i1, c2, c3, c4, c5.
Qed.

(** The entries of [custom] on the cut handed to the writer: the fields
    left in the record, and beneath them what the target, reference and
    embedding stages have attached. *)
Lemma convert_item_attached fs args item cut rest :
  convert_item fs args item = Ok (cut, rest) →
  ∃ m,
    custom_map cut = (CValue <$> rest) ∪ m ∧
    dom m ⊆ attached_keys ∧
    match without (primary_keys args) item !! target_key args with
    | None =>
        m !! "target_recording" = None ∧
        m !! LHOTSE_TARGET_CHANNEL_SELECTOR = None
    | Some _ => ∃ r, m !! "target_recording" = Some (CRecording r)
    end ∧
    match without (popped_before_reference args item) item
          !! reference_key args with
    | None =>
        m !! "reference_recording" = None ∧
        m !! LHOTSE_REFERENCE_CHANNEL_SELECTOR = None
    | Some _ => ∃ r, m !! "reference_recording" = Some (CRecording r)
    end ∧
    match without (popped_before_embedding args item) item
          !! embedding_key args with
    | None => m !! "embedding_vector" = None
    | Some _ => ∃ a, m !! "embedding_vector" = Some (CArray a)
    end.
Proof.
  intros (c1&i1&c2&c3&c4&c5&H1&H2&H3&H4&H5&H6)%convert_item_stages.
  apply make_cut_fresh in H1 as (Hc1&_).
  apply select_input_channels_effect in H2 as (_&_&Hc2).
  apply attach_target_effect in H3.
  apply attach_reference_effect in H4.
  apply attach_embedding_effect in H5.
  apply copy_remaining_Ok in H6 as (_&_&Hcut&_).
  exists (custom_map c5). split; [done|]. clear Hcut.
  assert (custom_map c2 = ∅) as E2.
  { unfold custom_map. by rewrite Hc2, Hc1. }
  assert (∀ c m, custom c = Some m → custom_map c = m) as Hmap.
  { intros c m Hc. unfold custom_map. by rewrite Hc. }
  unfold attached_keys.
  destruct (without (primary_keys args) item !! target_key args);
    [destruct H3 as [target [H3|[tch H3]]]; apply Hmap in H3|subst c3];
    (destruct (without (popped_before_reference args item) item
               !! reference_key args);
     [destruct H4 as [reference [H4|[rch H4]]]; apply Hmap in H4|subst c4]);
    (destruct (without (popped_before_embedding args item) item
               !! embedding_key args);
     [destruct H5 as [embedding H5]; apply Hmap in H5|subst c5]);
    repeat match goal with H : custom_map _ = _ |- _ => rewrite H; clear H end;
    rewrite ?dom_insert_L, dom_empty_L;
    (split; [set_solver|]);
    attached_lookup; eauto 10.
Qed.

(** What is left in the record is in the extension map. *)
Lemma convert_item_copies fs args item cut rest k v :
  convert_item fs args item = Ok (cut, rest) →
  rest !! k = Some v → custom_map cut !! k = Some (CValue v).
Proof.
  intros (c1&i1&c2&i2&c3&i3&c4&i4&c5&_&_&_&_&_&H)%convert_item_Ok Hk.
  apply copy_remaining_Ok in H as (_ & _ & -> & _).
  apply lookup_union_Some_l. by rewrite lookup_fmap, Hk.
Qed.

(** C1: after a successful conversion the keys the converter consumed
    and the keys left in the record are disjoint and together make up
    the keys of the original record; the keys left are the ones copied
    into the extension map, each with the value it had in the record;
    and the extension map holds nothing else but what the converter
    attaches itself under its own five keys, so that no consumed field
    is copied. *)
Theorem consumed_and_copied_keys fs args item cut rest :
  convert_item fs args item = Ok (cut, rest) →
  consumed_keys args item ## dom rest ∧
  consumed_keys args item ∪ dom rest = dom item ∧
  {[input_key args; "duration"]} ⊆ consumed_keys args item ∧
  dom rest ⊆ dom (custom_map cut) ∧
  dom (custom_map cut) ⊆ dom rest ∪ attached_keys ∧
  (∀ k v, rest !! k = Some v →
     item !! k = Some v ∧ custom_map cut !! k = Some (CValue v)) ∧
  (∀ k, k ∈ consumed_keys args item → k ∉ attached_keys →
     custom_map cut !! k = None).
Proof.
  intros H. pose proof (convert_item_frame _ _ _ _ _ H) as Hrest.
  destruct (convert_item_attached _ _ _ _ _ H) as (m & Hc & Hm & _).
  apply convert_item_Ok in H
    as (c1&i1&c2&i2&c3&i3&c4&i4&c5&H1&H2&H3&H4&H5&H6).
  assert ({[input_key args; "duration"]} ⊆ dom item) as Hdom.
  { rewrite make_cut_eq in H1. unfold mbind, result_bind in H1.
    destruct (item !! input_key args) as [v|] eqn:E; [|done].
    repeat case_match; simplify_eq.
    assert (item !! "duration" = Some v0) as E'.
    { match goal with
      | H : delete _ _ !! "duration" = Some _ |- _ =>
          apply lookup_delete_Some in H as [_ H]; exact H
      end. }
    apply union_subseteq. split; apply singleton_subseteq_l, elem_of_dom; eauto. }
  assert (dom (custom_map cut) = dom rest ∪ dom m) as Hd.
  { by rewrite Hc, dom_union_L, dom_fmap_L. }
  assert (consumed_keys args item ## dom rest) as Hdisj.
  { unfold consumed_keys. rewrite Hrest, dom_without. set_solver. }
  split; [done|]. split.
  { unfold consumed_keys. rewrite Hrest, dom_without.
    apply set_eq. intros k. destruct (decide (k ∈ popped_keys args item)); set_solver. }
  split.
  { unfold consumed_keys, popped_keys, primary_keys. cbv zeta. set_solver. }
  split; [set_solver|]. split; [set_solver|]. split.
  - intros k v Hk. split.
    + rewrite Hrest in Hk. by apply lookup_without_Some in Hk as [_ Hk].
    + rewrite Hc. apply lookup_union_Some_l. by rewrite lookup_fmap, Hk.
  - intros k Hk Hna. apply not_elem_of_dom. set_solver.
Qed.

(** ** Where an exception comes from *)

Lemma for_each_Err {S X : Type} (body : S → X → result S) xs st e :
  for_each body xs st = Err e → ∃ st' x, x ∈ xs ∧ body st' x = Err e.
Proof.
  revert st. induction xs as [|x xs IH]; intros st H; [done|].
  simpl in H. destruct (body st x) as [st1|e1] eqn:E; simpl in H.
  - destruct (IH _ H) as (st' & y & Hy & He). exists st', y. split; [by right|done].
  - injection H as <-. exists st, x. split; [by left|done].
Qed.

(** Induction on a JSON value, through the entries of its lists. *)
Lemma value_lists_ind (P : value → Prop) :
  P VNone → (∀ b, P (VBool b)) → (∀ z, P (VInt z)) → (∀ f, P (VFloat f)) →
  (∀ s, P (VStr s)) → (∀ l, Forall P l → P (VList l)) → (∀ d, P (VDict d)) →
  ∀ v, P v.
Proof.
  intros HN HB HI HF HS HL HD. fix IH 1.
  intros [|b|z|f|s|l|d];
    [exact HN|apply HB|apply HI|apply HF|apply HS| |apply HD].
  apply HL. induction l as [|a l IHl]; constructor; [apply IH|exact IHl].
Qed.

Lemma get_full_path_Err fs v manifest e :
  get_full_path fs v manifest = Err e → ∃ w, e = ValueError w.
Proof.
  revert e. induction v as [| | | | |l IH|] using value_lists_ind;
    intros e; simpl; intros H; try done;
    try (injection H as <-; by eexists).
  match type of H with
  | ?r ≫= _ = _ => destruct r as [ps|e'] eqn:E
  end; simpl in H; [done|].
  injection H as <-. revert e' E.
  induction IH as [|a l Ha _ IHl]; intros e' E; [done|].
  destruct (get_full_path fs a manifest) as [a'|ea] eqn:Ea; simpl in E.
  - match type of E with
    | ?r ≫= _ = _ => destruct r as [ps|e2] eqn:E2
    end; simpl in E; [done|].
    injection E as <-. by apply IHl.
  - injection E as <-. by apply Ha.
Qed.

Lemma create_recording_Err fs path e key :
  create_recording fs path = Err e → ¬ selector_assertion key e.
Proof.
  intros H [ch ->]. destruct path as [path|entries]; simpl in H.
  - unfold from_file, read in H. by destruct (audio_recording fs path).
  - destruct (for_each (loop_body fs) entries loop_init) as [st|e'] eqn:E; simpl in H.
    + unfold py_assert in H. destruct (same_samplerates (infos st)); simpl in H; [|done].
      destruct (p st) as [[|c l]|]; simpl in H; try done.
      by destruct (infos st).
    + injection H as ->. apply for_each_Err in E as (st' & [path|l] & _ & Hb).
      * unfold loop_body, info, read in Hb. by destruct (audio_info fs path).
      * done.
Qed.

Lemma create_array_Err fs path e key :
  create_array fs path = Err e → ¬ selector_assertion key e.
Proof.
  intros H [ch ->]. destruct path as [path|ps]; simpl in H; [|done].
  unfold py_assert in H. destruct (endswith path ".npy"); simpl in H; [|done].
  unfold np_load, read in H. destruct (numpy_array fs path); simpl in H; [|done].
  by destruct (os_path_split path).
Qed.

Lemma py_len_Err v e : py_len v = Err e → e = TypeError.
Proof. destruct v; simpl; congruence. Qed.

Section errors.
Variable fs : FileSystem.
Variable args : Args.

Lemma make_cut_Err item e key :
  make_cut fs args item = Err e → ¬ selector_assertion key e.
Proof.
  rewrite make_cut_eq. intros H Hsel.
  destruct (item !! input_key args) as [v|];
    [|injection H as <-; by destruct Hsel].
  destruct (get_full_path fs v (input args)) as [path|e1] eqn:E1; simpl in H.
  2:{ injection H as <-. apply get_full_path_Err in E1 as [w ->]. by destruct Hsel. }
  destruct (create_recording fs path) as [r|e2] eqn:E2; simpl in H.
  2:{ injection H as <-. by eapply create_recording_Err. }
  destruct (delete (input_key args) item !! "duration"); [done|].
  injection H as <-. by destruct Hsel.
Qed.

Lemma select_input_channels_Err cut item e key :
  select_input_channels cut item = Err e → selector_assertion key e →
  key = INPUT_CHANNEL_SELECTOR.
Proof.
  rewrite select_input_channels_eq. cbv zeta. unfold py_assert. intros H [ch ->].
  destruct (is_not_None _); [|done].
  destruct (cut_num_channels cut =? 1)%nat; [|done].
  destruct (py_len _) as [n|e0] eqn:En; simpl in H;
    [|apply py_len_Err in En; congruence].
  destruct (n =? 1)%nat; simpl in H; [done|]. by injection H as <- _.
Qed.

Lemma attach_target_Err cut item e key :
  attach_target fs args cut item = Err e → selector_assertion key e →
  key = TARGET_CHANNEL_SELECTOR ∧ is_Some (item !! target_key args).
Proof.
  rewrite attach_target_eq. cbv zeta. unfold py_assert. intros H Hsel.
  destruct (item !! target_key args) as [v|]; [|done]. split; [|done].
  destruct (get_full_path fs v (input args)) as [path|e1] eqn:E1; simpl in H.
  2:{ injection H as <-. apply get_full_path_Err in E1 as [w ->]. by destruct Hsel. }
  destruct (create_recording fs path) as [r|e2] eqn:E2; simpl in H.
  2:{ injection H as <-. by destruct (create_recording_Err _ _ _ key E2). }
  destruct Hsel as [ch ->].
  destruct (is_not_None _); [|done].
  destruct (rec_num_channels r =? 1)%nat; [|done].
  destruct (py_len _) as [n|e0] eqn:En; simpl in H;
    [|apply py_len_Err in En; congruence].
  destruct (n =? 1)%nat; simpl in H; [done|]. by injection H as <- _.
Qed.

Lemma attach_reference_Err cut item e key :
  attach_reference fs args cut item = Err e → selector_assertion key e →
  key = REFERENCE_CHANNEL_SELECTOR ∧ is_Some (item !! reference_key args).
Proof.
  rewrite attach_reference_eq. cbv zeta. unfold py_assert. intros H Hsel.
  destruct (item !! reference_key args) as [v|]; [|done]. split; [|done].
  destruct (get_full_path fs v (input args)) as [path|e1] eqn:E1; simpl in H.
  2:{ injection H as <-. apply get_full_path_Err in E1 as [w ->]. by destruct Hsel. }
  destruct (create_recording fs path) as [r|e2] eqn:E2; simpl in H.
  2:{ injection H as <-. by destruct (create_recording_Err _ _ _ key E2). }
  destruct Hsel as [ch ->].
  destruct (is_not_None _); [|done].
  destruct (rec_num_channels r =? 1)%nat; [|done].
  destruct (py_len _) as [n|e0] eqn:En; simpl in H;
    [|apply py_len_Err in En; congruence].
  destruct (n =? 1)%nat; simpl in H; [done|]. by injection H as <- _.
Qed.

Lemma attach_embedding_Err cut item e key :
  attach_embedding fs args cut item = Err e → ¬ selector_assertion key e.
Proof.
  rewrite attach_embedding_eq. intros H Hsel.
  destruct (item !! embedding_key args) as [v|]; [|done].
  destruct (get_full_path fs v (input args)) as [path|e1] eqn:E1; simpl in H.
  2:{ injection H as <-. apply get_full_path_Err in E1 as [w ->]. by destruct Hsel. }
  destruct (create_array fs path) as [r|e2] eqn:E2; simpl in H; [done|].
  injection H as <-. by eapply create_array_Err.
Qed.

(** A failed selector assertion names the stage that raised it; the
    target and reference stages only run for a record that holds
    their path key. *)
Lemma convert_item_Err item e key :
  convert_item fs args item = Err e → selector_assertion key e →
  key = INPUT_CHANNEL_SELECTOR ∨
  key = TARGET_CHANNEL_SELECTOR ∧ is_Some (item !! target_key args) ∨
  key = REFERENCE_CHANNEL_SELECTOR ∧ is_Some (item !! reference_key args).
Proof.
  rewrite convert_item_eq. intros H Hsel.
  destruct (make_cut fs args item) as [[c1 i1]|e1] eqn:E1.
  2:{ injection H as <-. by destruct (make_cut_Err _ _ key E1). }
  destruct (select_input_channels c1 i1) as [[c2 i2]|e2] eqn:E2.
  2:{ injection H as <-. left. by eapply select_input_channels_Err. }
  apply make_cut_frame in E1. apply select_input_channels_frame in E2.
  destruct (attach_target fs args c2 i2) as [[c3 i3]|e3] eqn:E3.
  2:{ injection H as <-. right. left.
      destruct (attach_target_Err _ _ _ _ E3 Hsel) as [-> [v Hv]].
      split; [done|]. exists v.
      rewrite E2, E1 in Hv. by do 2 apply lookup_without_Some in Hv as [_ Hv]. }
  destruct (attach_reference fs args c3 i3) as [[c4 i4]|e4] eqn:E4.
  2:{ injection H as <-. right. right.
      destruct (attach_reference_Err _ _ _ _ E4 Hsel) as [-> [v Hv]].
      split; [done|]. exists v. apply attach_target_frame in E3.
      rewrite E3, E2, E1 in Hv. by do 3 apply lookup_without_Some in Hv as [_ Hv]. }
  destruct (attach_embedding fs args c4 i4) as [[c5 i5]|e5] eqn:E5.
  2:{ injection H as <-. by destruct (attach_embedding_Err _ _ _ key E5). }
  rewrite copy_remaining_eq in H. destruct Hsel as [ch ->].
  case_bool_decide; [|done]. by destruct (custom c5).
Qed.

End errors.

(** ** What the later stages leave alone *)

Section views.
Variable fs : FileSystem.
Variable args : Args.

Lemma attach_target_view cut item c item' :
  attach_target fs args cut item = Ok (c, item') → same_view cut c.
Proof.
  rewrite attach_target_eq. unfold mbind, result_bind. cbv zeta.
  intros H. repeat case_match; simplify_eq; done.
Qed.

Lemma attach_reference_view cut item c item' :
  attach_reference fs args cut item = Ok (c, item') → same_view cut c.
Proof.
  rewrite attach_reference_eq. unfold mbind, result_bind. cbv zeta.
  intros H. repeat case_match; simplify_eq; done.
Qed.

Lemma attach_embedding_view cut item c item' :
  attach_embedding fs args cut item = Ok (c, item') → same_view cut c.
Proof.
  rewrite attach_embedding_eq. unfold mbind, result_bind.
  intros H. repeat case_match; simplify_eq; done.
Qed.

(** The cut handed to the writer shows what the cut had after the
    input channel selector was dealt with. *)
Lemma convert_item_view item c1 i1 c2 i2 cut rest :
  make_cut fs args item = Ok (c1, i1) →
  select_input_channels c1 i1 = Ok (c2, i2) →
  convert_item fs args item = Ok (cut, rest) →
  same_view c2 cut.
Proof.
  intros H1 H2 H. rewrite convert_item_eq, H1, H2 in H.
  destruct (attach_target fs args c2 i2) as [[c3 i3]|] eqn:E3; [|done].
  destruct (attach_reference fs args c3 i3) as [[c4 i4]|] eqn:E4; [|done].
  destruct (attach_embedding fs args c4 i4) as [[c5 i5]|] eqn:E5; [|done].
  apply copy_remaining_Ok in H as (_&(?&?&?&?&?)&_).
  apply attach_target_view in E3 as (?&?&?&?&?).
  apply attach_reference_view in E4 as (?&?&?&?&?).
  apply attach_embedding_view in E5 as (?&?&?&?&?).
  unfold same_view. repeat split; congruence.
Qed.

(** The cut of a recording has as many channels as the recording. *)
Lemma make_cut_num_channels item cut item1 :
  make_cut fs args item = Ok (cut, item1) →
  cut_num_channels cut = rec_num_channels (recording cut).
Proof.
  rewrite make_cut_eq. unfold mbind, result_bind. cbv zeta.
  intros H. repeat case_match; simplify_eq.
  unfold cut_num_channels. simpl.
  destruct (rec_num_channels _ =? 1)%nat eqn:E.
  - by apply Nat.eqb_eq in E.
  - unfold rec_num_channels. by rewrite length_fmap.
Qed.

(** The first stage does not look at the input channel selector. *)
Lemma make_cut_delete_selector item cut item1 :
  input_key args ≠ INPUT_CHANNEL_SELECTOR →
  make_cut fs args item = Ok (cut, item1) →
  make_cut fs args (delete INPUT_CHANNEL_SELECTOR item) =
  Ok (cut, delete INPUT_CHANNEL_SELECTOR item1).
Proof.
  intros Hne. rewrite !make_cut_eq. cbv zeta.
  rewrite (lookup_delete_ne item INPUT_CHANNEL_SELECTOR (input_key args))
    by congruence.
  destruct (item !! input_key args) as [v|]; [|done].
  destruct (get_full_path fs v (input args)) as [path|];
    cbn [mbind result_bind]; [|done].
  destruct (create_recording fs path) as [r|];
    cbn [mbind result_bind]; [|done].
  rewrite (delete_delete _ (input_key args) INPUT_CHANNEL_SELECTOR).
  rewrite (lookup_delete_ne _ INPUT_CHANNEL_SELECTOR) by done.
  destruct (delete (input_key args) item !! "duration") as [d|]; [|done].
  rewrite (delete_delete _ "duration" INPUT_CHANNEL_SELECTOR).
  rewrite (lookup_delete_ne _ INPUT_CHANNEL_SELECTOR) by done.
  rewrite (delete_delete _ "offset" INPUT_CHANNEL_SELECTOR).
  by intros [= <- <-].
Qed.

End views.

Lemma target_keys_subseteq args item :
  target_keys args item ⊆ {[target_key args; TARGET_CHANNEL_SELECTOR]}.
Proof. unfold target_keys. case_decide; set_solver. Qed.

Lemma reference_keys_subseteq args item :
  reference_keys args item ⊆ {[reference_key args; REFERENCE_CHANNEL_SELECTOR]}.
Proof. unfold reference_keys. case_decide; set_solver. Qed.

Lemma embedding_keys_subseteq args item :
  embedding_keys args item ⊆ {[embedding_key args]}.
Proof. unfold embedding_keys. case_decide; set_solver. Qed.

Lemma target_keys_absent args item K :
  item !! target_key args = None → target_keys args (without K item) = ∅.
Proof.
  intros H. unfold target_keys. rewrite decide_False; [done|].
  rewrite dom_without, elem_of_difference, elem_of_dom.
  intros [[v Hv] _]. congruence.
Qed.

Lemma reference_keys_absent args item K :
  item !! reference_key args = None → reference_keys args (without K item) = ∅.
Proof.
  intros H. unfold reference_keys. rewrite decide_False; [done|].
  rewrite dom_without, elem_of_difference, elem_of_dom.
  intros [[v Hv] _]. congruence.
Qed.

(** C4: for a record with an input channel selector list, when the
    primary recording has one channel and the list does not have
    exactly one element the conversion fails with the selector
    assertion, a SchemaViolation; when the primary recording has more
    than one channel the cut is narrowed to the listed channels, and
    that is the channel set of the cut handed to the writer. *)
Theorem input_channel_selector fs args item cut item1 chans :
  input_key args ≠ INPUT_CHANNEL_SELECTOR →
  item !! INPUT_CHANNEL_SELECTOR = Some (VList chans) →
  make_cut fs args item = Ok (cut, item1) →
  (rec_num_channels (recording cut) = 1%nat → length chans ≠ 1%nat →
     convert_item fs args item =
       Err (AssertionError
              (SingleChannelSelector INPUT_CHANNEL_SELECTOR (VList chans))) ∧
     SchemaViolation
       (AssertionError
          (SingleChannelSelector INPUT_CHANNEL_SELECTOR (VList chans)))) ∧
  ((1 < rec_num_channels (recording cut))%nat →
     select_input_channels cut item1 =
       Ok (with_channels cut (VList chans), delete INPUT_CHANNEL_SELECTOR item1) ∧
     ∀ c rest, convert_item fs args item = Ok (c, rest) →
       channel c = VList chans ∧ recording c = recording cut).
Proof.
  intros Hne Hsel Hcut.
  pose proof (make_cut_num_channels _ _ _ _ _ Hcut) as Hnum.
  assert (item1 !! INPUT_CHANNEL_SELECTOR = Some (VList chans)) as Hsel1.
  { rewrite (make_cut_frame _ _ _ _ _ Hcut). apply lookup_without_Some.
    split; [|done]. set_solver. }
  split.
  - intros Hone Hlen. split; [|done].
    rewrite convert_item_eq, Hcut, select_input_channels_eq, Hsel1. cbv zeta.
    cbn [default from_option id is_not_None py_len mbind result_bind].
    rewrite Hnum, Hone. cbn [Nat.eqb].
    apply Nat.eqb_neq in Hlen. unfold py_assert. by rewrite Hlen.
  - intros Hmany.
    assert (select_input_channels cut item1 =
            Ok (with_channels cut (VList chans),
                delete INPUT_CHANNEL_SELECTOR item1)) as Hselect.
    { rewrite select_input_channels_eq, Hsel1. cbv zeta.
      cbn [default from_option id is_not_None].
      rewrite Hnum. by replace (_ =? 1)%nat with false
        by (symmetry; apply Nat.eqb_neq; lia). }
    split; [done|]. intros c rest Hc.
    by destruct (convert_item_view _ _ _ _ _ _ _ _ _ Hcut Hselect Hc)
      as (_&_&_&?&?).
Qed.

(** C6: a record that holds a single primary path, a duration and at
    most an offset converts to a cut over that file's recording which
    starts at the offset, or at 0.0 when the record has no offset,
    lasts exactly the record's duration, carries no target, reference
    or embedding, and has an empty extension map: the cut has no
    [custom] dict at all. *)
Theorem plain_record fs args item path d r :
  input_key args ≠ "duration" →
  input_key args ≠ "offset" →
  item !! input_key args = Some (VStr path) →
  item !! "duration" = Some d →
  dom item ⊆ {[input_key args; "duration"; "offset"]} →
  audio_recording fs (full_path fs (input args) path) = Some r →
  ∃ cut,
    convert_item fs args item = Ok (cut, ∅) ∧
    recording cut = r ∧
    start cut = default (VFloat 0) (item !! "offset") ∧
    duration cut = d ∧
    target_recording cut = None ∧
    reference_recording cut = None ∧
    embedding_vector cut = None ∧
    custom_map cut = ∅ ∧
    custom cut = None.
Proof.
  intros Hd Ho Hp Hdur Hdom Hr.
  exists (truncate (to_cut r) d (default (VFloat 0) (item !! "offset"))).
  split; [|done].
  rewrite convert_item_eq, make_cut_eq, Hp.
  cbn [get_full_path create_recording mbind result_bind]. unfold from_file.
  rewrite Hr. cbn [read]. cbv zeta.
  rewrite (lookup_delete_ne item (input_key args) "duration") by done.
  rewrite Hdur.
  rewrite (lookup_delete_ne _ "duration" "offset") by done.
  rewrite (lookup_delete_ne item (input_key args) "offset") by done.
  assert (delete "offset" (delete "duration" (delete (input_key args) item)) = ∅)
    as ->.
  { apply dom_empty_inv_L. rewrite !dom_delete_L. set_solver. }
  cbn [mbind result_bind].
  rewrite select_input_channels_eq, lookup_empty, delete_empty. cbv zeta.
  cbn [default from_option id is_not_None].
  rewrite attach_target_eq, lookup_empty.
  rewrite attach_reference_eq, lookup_empty.
  rewrite attach_embedding_eq, lookup_empty.
  rewrite copy_remaining_eq. by rewrite bool_decide_false by (by intros ?).
Qed.

(** C9: when the primary recording has one channel and the input
    channel selector has length one, the selector is popped and
    nothing else happens: the conversion gives what it gives for the
    record without the selector, the cut and the fields left alike. *)
Theorem single_channel_selector_ignored fs args item cut item1 sel :
  input_key args ≠ INPUT_CHANNEL_SELECTOR →
  item !! INPUT_CHANNEL_SELECTOR = Some sel →
  py_len sel = Ok 1%nat →
  make_cut fs args item = Ok (cut, item1) →
  rec_num_channels (recording cut) = 1%nat →
  select_input_channels cut item1 = Ok (cut, delete INPUT_CHANNEL_SELECTOR item1) ∧
  convert_item fs args item =
    convert_item fs args (delete INPUT_CHANNEL_SELECTOR item) ∧
  (∀ c rest, convert_item fs args item = Ok (c, rest) →
     rest !! INPUT_CHANNEL_SELECTOR = None ∧ same_view cut c).
Proof.
  intros Hne Hsel Hlen Hcut Hone.
  pose proof (make_cut_num_channels _ _ _ _ _ Hcut) as Hnum.
  assert (item1 !! INPUT_CHANNEL_SELECTOR = Some sel) as Hsel1.
  { rewrite (make_cut_frame _ _ _ _ _ Hcut). apply lookup_without_Some.
    split; [|done]. set_solver. }
  assert (select_input_channels cut item1 =
          Ok (cut, delete INPUT_CHANNEL_SELECTOR item1)) as Hselect.
  { rewrite select_input_channels_eq, Hsel1. cbv zeta.
    cbn [default from_option id]. rewrite Hnum, Hone, Hlen.
    by destruct sel. }
  split; [done|]. split.
  - rewrite !convert_item_eq, Hcut, Hselect.
    rewrite (make_cut_delete_selector _ _ _ _ _ Hne Hcut).
    rewrite select_input_channels_eq, lookup_delete_eq, delete_delete_eq.
    done.
  - intros c rest Hc. split.
    + rewrite (convert_item_frame _ _ _ _ _ Hc), lookup_without.
      rewrite decide_True; [done|].
      unfold popped_keys, primary_keys. cbv zeta. set_solver.
    + by eapply convert_item_view.
Qed.

Lemma selector_keys_distinct :
  TARGET_CHANNEL_SELECTOR ≠ "duration" ∧
  TARGET_CHANNEL_SELECTOR ≠ "offset" ∧
  TARGET_CHANNEL_SELECTOR ≠ INPUT_CHANNEL_SELECTOR ∧
  TARGET_CHANNEL_SELECTOR ≠ REFERENCE_CHANNEL_SELECTOR ∧
  REFERENCE_CHANNEL_SELECTOR ≠ "duration" ∧
  REFERENCE_CHANNEL_SELECTOR ≠ "offset" ∧
  REFERENCE_CHANNEL_SELECTOR ≠ INPUT_CHANNEL_SELECTOR.
Proof. repeat split; discriminate. Qed.

(** Line 138 on a cut to which nothing has been attached: the cut has
    no [custom] dict for the fields left in the record. *)
Lemma convert_item_without_dict fs args item c1 i1 c2 i2 :
  make_cut fs args item = Ok (c1, i1) →
  select_input_channels c1 i1 = Ok (c2, i2) →
  i2 !! target_key args = None →
  i2 !! reference_key args = None →
  i2 !! embedding_key args = None →
  i2 ≠ ∅ →
  custom c2 = None ∧
  convert_item fs args item = Err (AttributeError "update").
Proof.
  intros H1 H2 Ht Hr He Hleft.
  pose proof (make_cut_fresh _ _ _ _ _ H1) as [Hc1 _].
  pose proof (select_input_channels_effect _ _ _ _ H2) as (_&_&Hc2).
  split; [congruence|].
  rewrite convert_item_eq, H1, H2.
  rewrite attach_target_eq, Ht, attach_reference_eq, Hr, attach_embedding_eq, He.
  rewrite copy_remaining_eq, Hc2, Hc1. by rewrite bool_decide_true.
Qed.

(** The record after the first two stages. *)
Lemma select_input_channels_rest fs args item c1 i1 c2 i2 :
  make_cut fs args item = Ok (c1, i1) →
  select_input_channels c1 i1 = Ok (c2, i2) →
  i2 = without (primary_keys args) item.
Proof.
  intros H1 H2.
  rewrite (select_input_channels_frame _ _ _ _ H2).
  by rewrite (make_cut_frame _ _ _ _ _ H1), without_without.
Qed.

(** C10: a target channel selector in a record without the target path
    key is left in the record, for line 138 to copy it into the
    extension map.  But when the record names no target, no reference
    and no embedding, nothing has been attached to the cut, the cut has
    no [custom] dict, and the copy raises AttributeError: the selector
    is not copied, and no cut is written for the record.  The same
    holds for a reference channel selector in a record without the
    reference path key. *)
Theorem orphan_channel_selector_lost fs args item key sel c1 i1 c2 i2 :
  key = TARGET_CHANNEL_SELECTOR ∨ key = REFERENCE_CHANNEL_SELECTOR →
  item !! key = Some sel →
  key ≠ input_key args →
  item !! target_key args = None →
  item !! reference_key args = None →
  item !! embedding_key args = None →
  make_cut fs args item = Ok (c1, i1) →
  select_input_channels c1 i1 = Ok (c2, i2) →
  i2 !! key = Some sel ∧
  custom c2 = None ∧
  convert_item fs args item = Err (AttributeError "update") ∧
  ∀ written, main_loop fs args [item] written =
             (written, Some (AttributeError "update")).
Proof.
  destruct selector_keys_distinct as (T1&T2&T3&T4&R1&R2&R3).
  intros Hkey Hsel Hne Ht Hr He H1 H2.
  pose proof (select_input_channels_rest _ _ _ _ _ _ _ H1 H2) as F2.
  assert (∀ k, item !! k = None → i2 !! k = None) as Hnone.
  { intros k Hk. rewrite F2, lookup_without. by case_decide. }
  assert (i2 !! key = Some sel) as Hsel2.
  { rewrite F2. apply lookup_without_Some.
    split; [|done]. destruct Hkey as [->| ->]; set_solver. }
  destruct (convert_item_without_dict _ _ _ _ _ _ _ H1 H2
              (Hnone _ Ht) (Hnone _ Hr) (Hnone _ He)) as [Hc2 Hconv].
  { intros ->. by rewrite lookup_empty in Hsel2. }
  split; [done|]. split; [done|]. split; [done|].
  intros written. simpl. by rewrite Hconv.
Qed.

(** ** The properties on the example directory *)

Lemma consumed_and_copied_keys_speaker :
  convert_item demo_fs demo_args speaker_target_item =
    Ok (outcome (convert_item demo_fs demo_args speaker_target_item)) ∧
  (outcome (convert_item demo_fs demo_args speaker_target_item)).2 =
    {["speaker" := VStr "A"]} ∧
  custom_map (outcome (convert_item demo_fs demo_args speaker_target_item)).1
    !! "speaker" = Some (CValue (VStr "A")) ∧
  custom_map (outcome (convert_item demo_fs demo_args speaker_target_item)).1
    !! "duration" = None.
Proof.
  split; [by_vm|]. split; [by_vm|].
  destruct (consumed_and_copied_keys demo_fs demo_args speaker_target_item
              (outcome (convert_item demo_fs demo_args speaker_target_item)).1
              (outcome (convert_item demo_fs demo_args speaker_target_item)).2)
    as (_ & _ & _ & _ & _ & Hcopy & Hnot); [by_vm|].
  split.
  - apply (Hcopy "speaker" (VStr "A")). by_vm.
  - apply (Hnot "duration").
    + apply (bool_decide_unpack _). vm_compute. exact I.
    + apply (bool_decide_unpack _). vm_compute. exact I.
Defined.

Lemma create_recording_channel_blocks_2_1 :
  ∃ r,
    create_recording demo_fs (ManyPaths ["/m/a.wav"; "/m/b.wav"]) = Ok r ∧
    sources r !! 0%nat =
      Some {| src_type := "file"; src_channels := [0; 1]; src_source := "/m/a.wav" |} ∧
    sources r !! 1%nat =
      Some {| src_type := "file"; src_channels := [2]; src_source := "/m/b.wav" |} ∧
    channel_ids r = [0; 1; 2].
Proof.
  eexists. split; [vm_compute; reflexivity|].
  edestruct (create_recording_channel_blocks demo_fs
               ["/m/a.wav"; "/m/b.wav"] [stereo_info; mono_info])
    as (_ & _ & Hk & Hids & _).
  - repeat constructor.
  - vm_compute. reflexivity.
  - split; [|split].
    + exact (Hk 0%nat "/m/a.wav" stereo_info eq_refl eq_refl).
    + exact (Hk 1%nat "/m/b.wav" mono_info eq_refl eq_refl).
    + exact Hids.
Defined.

Lemma create_recording_sampling_rates_abort :
  main demo_fs demo_args [offset_item; mismatch_item; offset_item] =
  ([(outcome (convert_item demo_fs demo_args offset_item)).1],
   Some (AssertionError
           (MismatchedSamplingRates (ManyPaths ["/m/a.wav"; "/m/c.wav"])))).
Proof.
  destruct (create_recording_sampling_rates demo_fs demo_args
              ["/m/a.wav"; "/m/c.wav"] [stereo_info; slow_info] stereo_info)
    as [Hbad _].
  - repeat constructor.
  - reflexivity.
  - destruct Hbad as (_ & _ & Hrun).
    + exists 1%nat, slow_info. split; [reflexivity|]. vm_compute. discriminate.
    + apply (Hrun [offset_item]
               [(outcome (convert_item demo_fs demo_args offset_item)).1]
               mismatch_item (VList [VStr "a.wav"; VStr "c.wav"]) [offset_item]).
      * constructor; [|constructor].
        exists (outcome (convert_item demo_fs demo_args offset_item)).2. by_vm.
      * by_vm.
      * by_vm.
Defined.

Lemma input_channel_selector_examples :
  convert_item demo_fs demo_args mono_two_item =
    Err (AssertionError
           (SingleChannelSelector INPUT_CHANNEL_SELECTOR (VList [VInt 0; VInt 1]))) ∧
  convert_item demo_fs demo_args stereo_item =
    Ok (outcome (convert_item demo_fs demo_args stereo_item)) ∧
  channel (outcome (convert_item demo_fs demo_args stereo_item)).1 =
    VList [VInt 1; VInt 2].
Proof.
  split; [|split; [by_vm|]].
  - destruct (input_channel_selector demo_fs demo_args mono_two_item
                (outcome (make_cut demo_fs demo_args mono_two_item)).1
                (outcome (make_cut demo_fs demo_args mono_two_item)).2
                [VInt 0; VInt 1])
      as [Hone _].
    + vm_compute. discriminate.
    + by_vm.
    + by_vm.
    + apply Hone; [reflexivity|vm_compute; discriminate].
  - destruct (input_channel_selector demo_fs demo_args stereo_item
                (outcome (make_cut demo_fs demo_args stereo_item)).1
                (outcome (make_cut demo_fs demo_args stereo_item)).2
                [VInt 1; VInt 2])
      as [_ Hmany].
    + vm_compute. discriminate.
    + by_vm.
    + by_vm.
    + destruct Hmany as [_ Hc]; [vm_compute; lia|].
      apply (Hc _ (outcome (convert_item demo_fs demo_args stereo_item)).2).
      by_vm.
Defined.

Lemma create_array_spec_3_4 :
  ∃ a,
    create_array demo_fs (OnePath "/m/emb/x.npy") = Ok a ∧
    shape a = [3; 4] ∧ storage_key a = "x.npy" ∧ storage_path a = "/m/emb".
Proof.
  destruct (create_array_spec demo_fs "/m/emb/x.npy") as (_ & Hok & _).
  destruct (Hok eq_refl {| arr_shape := [3; 4]; arr_data := [] |} eq_refl)
    as (a & prefix & Ha & _ & Hshape & Hsplit & _).
  exists a. split; [done|]. split; [done|].
  by injection Hsplit as -> ->.
Defined.

Lemma plain_record_examples :
  (∃ cut,
     convert_item demo_fs demo_args
       (list_to_map [("audio_filepath", VStr "b.wav"); ("duration", VFloat 1.5)]) =
       Ok (cut, ∅) ∧
     start cut = VFloat 0 ∧ duration cut = VFloat 1.5 ∧ custom cut = None) ∧
  (∃ cut,
     convert_item demo_fs demo_args offset_item = Ok (cut, ∅) ∧
     start cut = VFloat 0.5 ∧ duration cut = VFloat 1 ∧ custom cut = None).
Proof.
  split.
  - destruct (plain_record demo_fs demo_args
                (list_to_map [("audio_filepath", VStr "b.wav");
                              ("duration", VFloat 1.5)]) "b.wav"
                (VFloat 1.5) mono_recording)
      as (cut & Hc & _ & Hs & Hd & _ & _ & _ & _ & Hcustom).
    + vm_compute. discriminate.
    + vm_compute. discriminate.
    + by_vm.
    + by_vm.
    + apply (bool_decide_unpack _). vm_compute. exact I.
    + by_vm.
    + exists cut. repeat split; done.
  - destruct (plain_record demo_fs demo_args offset_item "b.wav"
                (VFloat 1) mono_recording)
      as (cut & Hc & _ & Hs & Hd & _ & _ & _ & _ & Hcustom).
    + vm_compute. discriminate.
    + vm_compute. discriminate.
    + by_vm.
    + by_vm.
    + apply (bool_decide_unpack _). vm_compute. exact I.
    + by_vm.
    + exists cut. repeat split; done.
Defined.

Lemma create_recording_first_file_example :
  ∃ r,
    create_recording demo_fs (ManyPaths ["/m/a.wav"; "/m/b.wav"]) = Ok r ∧
    sampling_rate r = 16000 ∧ num_samples r = 16000 ∧
    rec_duration r = 1%float ∧
    create_recording demo_fs' (ManyPaths ["/m/a.wav"; "/m/b.wav"]) = Ok r.
Proof.
  eexists. split; [vm_compute; reflexivity|].
  apply (create_recording_first_file demo_fs demo_fs' "/m/a.wav" ["/m/b.wav"]
           stereo_info).
  - reflexivity.
  - reflexivity.
  - intros path i Hin Hi. apply list_elem_of_singleton in Hin as ->.
    injection Hi as <-. eexists. split; [reflexivity|]. by split.
  - vm_compute. reflexivity.
Defined.

Lemma create_recording_id_example :
  ∃ r,
    create_recording demo_fs (ManyPaths ["/m/a.wav"; "/m/b.wav"]) = Ok r ∧
    rec_id r = "/" ∧ rec_id r ≠ "/m/b.wav".
Proof.
  eexists. split; [vm_compute; reflexivity|].
  edestruct (create_recording_id demo_fs ["/m/a.wav"; "/m/b.wav"])
    as (l & c & tl & Hlast & Hl & Hid & Hpath).
  - vm_compute. reflexivity.
  - injection Hlast as <-. injection Hl as <- <-.
    split; [exact Hid|]. rewrite Hid. discriminate.
Defined.

Lemma single_channel_selector_ignored_example :
  convert_item demo_fs demo_args mono_one_item =
  convert_item demo_fs demo_args offset_item ∧
  convert_item demo_fs demo_args mono_one_item =
    Ok (outcome (convert_item demo_fs demo_args mono_one_item)) ∧
  channel (outcome (convert_item demo_fs demo_args mono_one_item)).1 = VInt 0.
Proof.
  destruct (single_channel_selector_ignored demo_fs demo_args mono_one_item
              (outcome (make_cut demo_fs demo_args mono_one_item)).1
              (outcome (make_cut demo_fs demo_args mono_one_item)).2
              (VList [VInt 0]))
    as (_ & Heq & _).
  - vm_compute. discriminate.
  - by_vm.
  - reflexivity.
  - by_vm.
  - reflexivity.
  - split; [|split].
    + etrans; [exact Heq|]. by_vm.
    + by_vm.
    + by_vm.
Defined.

Lemma orphan_channel_selector_lost_example :
  convert_item demo_fs demo_args orphan_item = Err (AttributeError "update") ∧
  main demo_fs demo_args [orphan_item] = ([], Some (AttributeError "update")).
Proof.
  destruct (orphan_channel_selector_lost demo_fs demo_args orphan_item
              TARGET_CHANNEL_SELECTOR (VList [VInt 0; VInt 1; VInt 2])
              (outcome (make_cut demo_fs demo_args orphan_item)).1
              (outcome (make_cut demo_fs demo_args orphan_item)).2
              (outcome (select_input_channels
                          (outcome (make_cut demo_fs demo_args orphan_item)).1
                          (outcome (make_cut demo_fs demo_args orphan_item)).2)).1
              (outcome (select_input_channels
                          (outcome (make_cut demo_fs demo_args orphan_item)).1
                          (outcome (make_cut demo_fs demo_args orphan_item)).2)).2)
    as (_ & _ & Hconv & Hrun).
  - by left.
  - by_vm.
  - vm_compute. discriminate.
  - by_vm.
  - by_vm.
  - by_vm.
  - by_vm.
  - by_vm.
  - split; [exact Hconv|exact (Hrun [])].
Defined.

(** * Further properties *)

(** ** Required fields *)

(** X1: a record without the primary path key fails with the KeyError
    for that key; a record whose primary recording can be built and
    that has no duration fails with the KeyError for "duration", after
    the recording has been built. *)
Theorem missing_required_field fs args item :
  (item !! input_key args = None →
     convert_item fs args item = Err (KeyError (input_key args))) ∧
  (∀ v path r,
     item !! input_key args = Some v →
     get_full_path fs v (input args) = Ok path →
     create_recording fs path = Ok r →
     delete (input_key args) item !! "duration" = None →
     convert_item fs args item = Err (KeyError "duration")).
Proof.
  split.
  - intros H. by rewrite convert_item_eq, make_cut_eq, H.
  - intros v path r Hv Hp Hr Hd.
    rewrite convert_item_eq, make_cut_eq, Hv, Hp. cbn [mbind result_bind].
    rewrite Hr. cbn [mbind result_bind]. cbv zeta. by rewrite Hd.
Qed.

(** ** Lists of primary files *)

Lemma for_each_app {S X : Type} (body : S → X → result S) xs ys st :
  for_each body (xs ++ ys) st = for_each body xs st ≫= for_each body ys.
Proof.
  revert st. induction xs as [|x xs IH]; intros st; [done|].
  simpl. destruct (body st x) as [st'|]; simpl; [apply IH|done].
Qed.

Lemma loop_body_Err fs st path :
  audio_info fs path = None → loop_body fs st (OnePath path) = Err (OSError path).
Proof. intros H. unfold loop_body, info, read. by rewrite H. Qed.

(** X2: an empty list of primary paths leaves the loop variable [p]
    unbound: [create_recording] fails with UnboundLocalError, not on an
    assertion, and so does the conversion of a record whose primary
    field is an empty list. *)
Theorem empty_path_list fs args item :
  item !! input_key args = Some (VList []) →
  create_recording fs (ManyPaths []) = Err (UnboundLocalError "p") ∧
  convert_item fs args item = Err (UnboundLocalError "p").
Proof.
  intros H. split; [done|].
  by rewrite convert_item_eq, make_cut_eq, H.
Qed.

(** X3: when the files of a list are readable up to one that is not,
    [create_recording] fails with the error of that file, whatever the
    files after it and whatever the sampling rates. *)
Theorem unreadable_file fs readable infs bad later :
  probed fs readable infs →
  audio_info fs bad = None →
  create_recording fs (ManyPaths (readable ++ bad :: later)) = Err (OSError bad).
Proof.
  intros Hp Hbad. unfold create_recording, ManyPaths.
  rewrite fmap_app, fmap_cons, for_each_app, (for_each_loop_body _ _ _ _ Hp).
  cbn [mbind result_bind for_each].
  by rewrite (loop_body_Err _ _ _ Hbad).
Qed.

Lemma create_recording_many_id_length fs ps r :
  create_recording fs (ManyPaths ps) = Ok r → String.length (rec_id r) = 1%nat.
Proof.
  intros Hr.
  destruct (create_recording_many_probed _ _ _ Hr) as (infs & Hprobed).
  rewrite (create_recording_many _ _ _ Hprobed) in Hr.
  destruct (same_samplerates infs); [|done].
  destruct (last ps) as [[|c tl]|]; try done.
  simpl in Hr. destruct (list_first infs); [|done]. simpl in Hr.
  by injection Hr as <-.
Qed.

(** The loop only gets through a list all of whose entries are paths. *)
Lemma for_each_loop_body_paths fs entries st st' :
  for_each (loop_body fs) entries st = Ok st' → ∃ ps, entries = OnePath <$> ps.
Proof.
  revert st. induction entries as [|[path|l] entries IH]; intros st H.
  - by exists [].
  - simpl in H. apply result_bind_Ok in H as (st1 & _ & H).
    destruct (IH _ H) as (ps & ->). by exists (path :: ps).
  - done.
Qed.

Lemma create_recording_list fs entries r :
  create_recording fs (PathList entries) = Ok r →
  ∃ ps, PathList entries = ManyPaths ps.
Proof.
  unfold create_recording. intros H.
  apply result_bind_Ok in H as (st & H & _).
  apply for_each_loop_body_paths in H as (ps & ->). by exists ps.
Qed.

(** ** Paths *)

Lemma length_append s t :
  String.length (s +:+ t) = (String.length s + String.length t)%nat.
Proof. induction s as [|c s IH]; [done|]. rewrite append_String. simpl. by rewrite IH. Qed.

Lemma substring_append_r s t :
  String.substring (String.length s) (String.length t) (s +:+ t) = t.
Proof.
  induction s as [|c s IH]; [apply substring_all|].
  by rewrite append_String.
Qed.

Lemma substring_append_l s t :
  String.substring 0 (String.length s) (s +:+ t) = s.
Proof.
  induction s as [|c s IH]; [by destruct t|].
  rewrite append_String. simpl. by rewrite IH.
Qed.

(** [endswith] holds of the strings that are a prefix followed by the
    suffix. *)
Lemma endswith_iff s suffix :
  endswith s suffix = true ↔ ∃ prefix, s = prefix +:+ suffix.
Proof.
  unfold endswith. rewrite andb_true_iff, Nat.leb_le, String.eqb_eq. split.
  - intros [Hle Hsub].
    exists (String.substring 0 (String.length s - String.length suffix) s).
    pose proof (substring_split (String.length s - String.length suffix) s) as H.
    replace (String.length s - (String.length s - String.length suffix))%nat
      with (String.length suffix) in H by lia.
    rewrite Hsub in H. symmetry. apply H. lia.
  - intros [prefix ->]. rewrite length_append. split; [lia|].
    replace (String.length prefix + String.length suffix - String.length suffix)%nat
      with (String.length prefix) by lia.
    apply substring_append_r.
Qed.

Lemma after_last_slash_no_slash s : has_slash s = false → after_last_slash s = 0%nat.
Proof.
  induction s as [|c s IH]; [done|]. simpl.
  intros [Hc Hs]%orb_false_iff. by rewrite (IH Hs), Hc.
Qed.

Lemma after_last_slash_join dir name :
  has_slash name = false →
  after_last_slash (dir +:+ String "/" name) = S (String.length dir).
Proof.
  intros Hname. induction dir as [|c dir IH].
  - change ("" +:+ String "/" name) with (String "/" name). simpl.
    by rewrite (after_last_slash_no_slash _ Hname).
  - rewrite append_String. simpl. by rewrite IH.
Qed.

Lemma rstrip_slash_keeps s c :
  c ≠ "/"%char → rstrip_slash (s +:+ String c "") = s +:+ String c "".
Proof.
  intros Hc. induction s as [|c' s IH].
  - change ("" +:+ String c "") with (String c ""). simpl.
    by rewrite (proj2 (Ascii.eqb_neq _ _) Hc).
  - rewrite append_String. simpl. rewrite IH.
    by destruct s.
Qed.

Lemma rstrip_slash_slash s : rstrip_slash (s +:+ "/") = rstrip_slash s.
Proof.
  induction s as [|c s IH]; [done|].
  rewrite append_String. simpl. by rewrite IH.
Qed.

Lemma append_assoc (s t u : string) : (s +:+ t) +:+ u = s +:+ (t +:+ u).
Proof. induction s as [|c s IH]; [done|]. by rewrite !append_String, IH. Qed.

(** [os.path.split] undoes joining a directory and a file name. *)
Lemma os_path_split_join stem c name :
  c ≠ "/"%char → has_slash name = false →
  os_path_split ((stem +:+ String c "") +:+ String "/" name) =
  (stem +:+ String c "", name).
Proof.
  intros Hc Hname. set (dir := stem +:+ String c "").
  unfold os_path_split. rewrite (after_last_slash_join _ _ Hname).
  assert (dir +:+ String "/" name = (dir +:+ "/") +:+ name) as Hre.
  { by rewrite append_assoc. }
  assert (S (String.length dir) = String.length (dir +:+ "/")) as Hlen.
  { rewrite length_append. simpl. lia. }
  rewrite Hre, Hlen, substring_append_l.
  rewrite (length_append (dir +:+ "/") name).
  replace (String.length (dir +:+ "/") + String.length name
           - String.length (dir +:+ "/"))%nat
    with (String.length name) by lia.
  rewrite substring_append_r, rstrip_slash_slash.
  unfold dir. rewrite (rstrip_slash_keeps _ _ Hc).
  by destruct stem.
Qed.

Lemma os_path_split_no_slash path :
  has_slash path = false → os_path_split path = ("", path).
Proof.
  intros H. unfold os_path_split. rewrite (after_last_slash_no_slash _ H).
  rewrite Nat.sub_0_r, substring_all. by destruct path.
Qed.

(** X6: [create_array] fails its assertion exactly for the paths that
    are not some text followed by [.npy]; the text may be empty and the
    extension is matched letter for letter. *)
Theorem create_array_accepts fs path :
  (∃ stem, path = stem +:+ ".npy") ↔
  create_array fs (OnePath path) ≠ Err (AssertionError (OnlyNumpySupported path)).
Proof.
  rewrite <- endswith_iff. unfold create_array, py_assert, np_load, read.
  destruct (endswith path ".npy"); cbn [mbind result_bind].
  - split; [|done]. intros _.
    destruct (numpy_array fs path); cbn [mbind result_bind]; [|done].
    by destruct (os_path_split path).
  - split; [done|]. by intros [].
Qed.

(** X7: for an array file named [name] in a directory that does not
    end in a slash, the Array has the directory as storage path and
    [name] as storage key; for a path without slash the storage path is
    empty and the storage key is the path. *)
Theorem create_array_storage fs arr :
  (∀ stem c name,
     c ≠ "/"%char → has_slash name = false →
     let path := (stem +:+ String c "") +:+ String "/" name in
     endswith path ".npy" = true →
     numpy_array fs path = Some arr →
     create_array fs (OnePath path) =
     Ok {| storage_type := "numpy_files"; storage_path := stem +:+ String c "";
           storage_key := name; shape := arr_shape arr |}) ∧
  (∀ name,
     has_slash name = false →
     endswith name ".npy" = true →
     numpy_array fs name = Some arr →
     create_array fs (OnePath name) =
     Ok {| storage_type := "numpy_files"; storage_path := "";
           storage_key := name; shape := arr_shape arr |}).
Proof.
  split.
  - intros stem c name Hc Hname path Hnpy Harr.
    unfold create_array, py_assert, np_load, read. rewrite Hnpy, Harr.
    cbn [mbind result_bind]. unfold path.
    by rewrite (os_path_split_join _ _ _ Hc Hname).
  - intros name Hname Hnpy Harr.
    unfold create_array, py_assert, np_load, read. rewrite Hnpy, Harr.
    cbn [mbind result_bind]. by rewrite (os_path_split_no_slash _ Hname).
Qed.

(** ** The run over the manifest *)

Lemma main_loop_written fs args items written :
  main_loop fs args items written =
  (written ++ (main_loop fs args items []).1, (main_loop fs args items []).2).
Proof.
  revert written. induction items as [|item items IH]; intros written; simpl.
  - by rewrite app_nil_r.
  - destruct (convert_item fs args item) as [[cut rest]|e]; simpl.
    + rewrite (IH (written ++ [cut])), (IH [cut]). simpl.
      by rewrite <- app_assoc.
    + by rewrite app_nil_r.
Qed.

Lemma main_loop_app fs args items items' written :
  main_loop fs args (items ++ items') written =
  match main_loop fs args items written with
  | (cuts, None) => main_loop fs args items' cuts
  | (cuts, Some e) => (cuts, Some e)
  end.
Proof.
  revert written. induction items as [|item items IH]; intros written; simpl.
  - done.
  - destruct (convert_item fs args item) as [[cut rest]|e]; [apply IH|done].
Qed.

(** X8: running over one manifest after another: when the first part
    converts without error the run writes its cuts followed by those of
    the second part and ends as the second part does; when the first
    part fails the second part is not looked at. *)
Theorem main_app fs args items items' :
  main fs args (items ++ items') =
  match main fs args items with
  | (cuts, None) =>
      (cuts ++ (main fs args items').1, (main fs args items').2)
  | (cuts, Some e) => (cuts, Some e)
  end.
Proof.
  unfold main. rewrite main_loop_app.
  destruct (main_loop fs args items []) as [cuts [e|]]; [done|].
  apply main_loop_written.
Qed.

(** X9: when the run ends the writer has received, in order, the cuts
    of the records before the first one that fails, and the run's error
    is that record's; without a failing record it has received a cut
    for every record and there is no error. *)
Theorem main_prefix fs args items :
  ∃ n,
    converted fs args (take n items) (main fs args items).1 ∧
    match items !! n with
    | None => (main fs args items).2 = None
    | Some item =>
        ∃ e, convert_item fs args item = Err e ∧
             (main fs args items).2 = Some e
    end.
Proof.
  unfold main, converted. induction items as [|item items (n & Hcuts & Hn)].
  - exists 0%nat. split; [constructor|done].
  - simpl. destruct (convert_item fs args item) as [[cut rest]|e] eqn:E.
    + exists (S n). rewrite main_loop_written. simpl. split; [|done].
      constructor; [by exists rest|done].
    + exists 0%nat. simpl. split; [constructor|]. by exists e.
Qed.

(** ** The cut handed to the writer *)

Lemma attached_entry (rest : gmap string value)
    (m : gmap string custom_value) k :
  ((CValue <$> rest) ∪ m) !! k =
  match rest !! k with
  | Some v => Some (CValue v)
  | None => m !! k
  end.
Proof.
  rewrite lookup_union, lookup_fmap.
  destruct (rest !! k), (m !! k); done.
Qed.

(** X15: the extension map holds an entry under lhotse's target
    selector key only when a target recording is attached or the record
    itself had a field of that name left; likewise for the reference
    selector key. *)
Theorem lhotse_selector_entries fs args item cut rest :
  convert_item fs args item = Ok (cut, rest) →
  (is_Some (custom_map cut !! LHOTSE_TARGET_CHANNEL_SELECTOR) →
     is_Some (rest !! LHOTSE_TARGET_CHANNEL_SELECTOR) ∨
     is_Some (target_recording cut)) ∧
  (is_Some (custom_map cut !! LHOTSE_REFERENCE_CHANNEL_SELECTOR) →
     is_Some (rest !! LHOTSE_REFERENCE_CHANNEL_SELECTOR) ∨
     is_Some (reference_recording cut)).
Proof.
  intros (m & Hc & _ & Ht & Hr & _)%convert_item_attached.
  unfold target_recording, reference_recording.
  rewrite Hc, !attached_entry. split.
  - destruct (rest !! LHOTSE_TARGET_CHANNEL_SELECTOR); [by left|].
    intros Hm. right.
    destruct (without (primary_keys args) item !! target_key args).
    + destruct Ht as [r ->]. by destruct (rest !! "target_recording").
    + destruct Ht as [_ Ht]. rewrite Ht in Hm. by destruct Hm.
  - destruct (rest !! LHOTSE_REFERENCE_CHANNEL_SELECTOR); [by left|].
    intros Hm. right.
    destruct (without (popped_before_reference args item) item
              !! reference_key args).
    + destruct Hr as [r ->]. by destruct (rest !! "reference_recording").
    + destruct Hr as [_ Hr]. rewrite Hr in Hm. by destruct Hm.
Qed.

(** X14: the cut handed to the writer carries a target recording
    exactly when the record, once the primary fields are popped, holds
    the target path key and no field named [target_recording] is left
    in the record, which line 138 would put in its place; a reference
    recording exactly when the record still holds the reference path
    key when the reference stage runs and no field named
    [reference_recording] is left; an embedding exactly when the record
    still holds the embedding path key when the embedding stage runs
    and no field named [embedding_vector] is left. *)
Theorem attachments_present fs args item cut rest :
  convert_item fs args item = Ok (cut, rest) →
  ((∃ r, target_recording cut = Some (CRecording r)) ↔
     target_key args ∈ dom item ∖ primary_keys args ∧
     "target_recording" ∉ dom rest) ∧
  ((∃ r, reference_recording cut = Some (CRecording r)) ↔
     reference_key args ∈ dom item ∖ popped_before_reference args item ∧
     "reference_recording" ∉ dom rest) ∧
  ((∃ a, embedding_vector cut = Some (CArray a)) ↔
     embedding_key args ∈ dom item ∖ popped_before_embedding args item ∧
     "embedding_vector" ∉ dom rest).
Proof.
  intros (m & Hc & _ & Ht & Hr & He)%convert_item_attached.
  unfold target_recording, reference_recording, embedding_vector.
  rewrite Hc, !attached_entry.
  rewrite <- !dom_without, !not_elem_of_dom, !elem_of_dom.
  split; [|split].
  - destruct (rest !! "target_recording") as [x|].
    { split; [by intros [? ?]|by intros [_ ?]]. }
    destruct (without (primary_keys args) item !! target_key args).
    + split; [by eauto|done].
    + destruct Ht as [-> _]. split; [by intros [? ?]|by intros [[? ?] _]].
  - destruct (rest !! "reference_recording") as [x|].
    { split; [by intros [? ?]|by intros [_ ?]]. }
    destruct (without (popped_before_reference args item) item
              !! reference_key args).
    + split; [by eauto|done].
    + destruct Hr as [-> _]. split; [by intros [? ?]|by intros [[? ?] _]].
  - destruct (rest !! "embedding_vector") as [x|].
    { split; [by intros [? ?]|by intros [_ ?]]. }
    destruct (without (popped_before_embedding args item) item
              !! embedding_key args).
    + split; [by eauto|done].
    + rewrite He. split; [by intros [? ?]|by intros [[? ?] _]].
Qed.

(** X16: the recording of every cut converted from a record with a
    list of primary files has an id of one character. *)
Theorem multi_file_recording_id fs args item l cut rest :
  item !! input_key args = Some (VList l) →
  convert_item fs args item = Ok (cut, rest) →
  String.length (rec_id (recording cut)) = 1%nat.
Proof.
  intros Hl H.
  pose proof H as (c1&i1&c2&i2&c3&i3&c4&i4&c5&H1&H2&_)%convert_item_Ok.
  destruct (convert_item_view _ _ _ _ _ _ _ _ _ H1 H2 H) as (_&_&_&_&Hrec).
  pose proof (select_input_channels_effect _ _ _ _ H2) as (_&Hrec2&_).
  rewrite Hrec, Hrec2.
  rewrite make_cut_eq, Hl in H1.
  destruct (get_full_path fs (VList l) (input args)) as [path|] eqn:Ep; [|done].
  simpl in Ep. apply result_bind_Ok in Ep as (entries & _ & [= <-]).
  cbn [mbind result_bind] in H1.
  destruct (create_recording fs (PathList entries)) as [r|] eqn:Er; [|done].
  destruct (create_recording_list _ _ _ Er) as (ps & Eps). rewrite Eps in Er.
  cbn [mbind result_bind] in H1. cbv zeta in H1.
  repeat case_match; simplify_eq. simpl.
  by eapply create_recording_many_id_length.
Qed.

(** ** Channel selectors *)

(** The first stage gives the same cut or the same exception whether
    or not the record holds an input channel selector. *)
Lemma make_cut_delete_selector_eq fs args item :
  input_key args ≠ INPUT_CHANNEL_SELECTOR →
  make_cut fs args (delete INPUT_CHANNEL_SELECTOR item) =
  match make_cut fs args item with
  | Ok (cut, item1) => Ok (cut, delete INPUT_CHANNEL_SELECTOR item1)
  | Err e => Err e
  end.
Proof.
  intros Hne. rewrite !make_cut_eq. cbv zeta.
  rewrite (lookup_delete_ne item INPUT_CHANNEL_SELECTOR (input_key args))
    by congruence.
  destruct (item !! input_key args) as [v|]; [|done].
  destruct (get_full_path fs v (input args)) as [path|];
    cbn [mbind result_bind]; [|done].
  destruct (create_recording fs path) as [r|];
    cbn [mbind result_bind]; [|done].
  rewrite (delete_delete _ (input_key args) INPUT_CHANNEL_SELECTOR).
  rewrite (lookup_delete_ne _ INPUT_CHANNEL_SELECTOR) by done.
  destruct (delete (input_key args) item !! "duration") as [d|]; [|done].
  rewrite (delete_delete _ "duration" INPUT_CHANNEL_SELECTOR).
  rewrite (lookup_delete_ne _ INPUT_CHANNEL_SELECTOR) by done.
  by rewrite (delete_delete _ "offset" INPUT_CHANNEL_SELECTOR).
Qed.

(** X10: an input channel selector that is null is popped and
    otherwise ignored: the conversion gives what it gives for the
    record without the field, cut, fields left and exception alike. *)
Theorem null_input_selector fs args item :
  input_key args ≠ INPUT_CHANNEL_SELECTOR →
  item !! INPUT_CHANNEL_SELECTOR = Some VNone →
  convert_item fs args item =
  convert_item fs args (delete INPUT_CHANNEL_SELECTOR item).
Proof.
  intros Hne Hsel. rewrite !convert_item_eq.
  rewrite (make_cut_delete_selector_eq _ _ _ Hne).
  destruct (make_cut fs args item) as [[cut item1]|] eqn:Hcut; [|done].
  assert (item1 !! INPUT_CHANNEL_SELECTOR = Some VNone) as Hsel1.
  { rewrite (make_cut_frame _ _ _ _ _ Hcut). apply lookup_without_Some.
    split; [|done]. set_solver. }
  rewrite !select_input_channels_eq, Hsel1, lookup_delete_eq, delete_delete_eq.
  done.
Qed.

(** X11: an input channel selector that has no length, such as a
    number, makes the conversion of a record with a one-channel primary
    recording fail with TypeError; with any other primary recording it
    is handed to [with_channels] as it is. *)
Theorem unsized_input_selector fs args item cut item1 sel :
  input_key args ≠ INPUT_CHANNEL_SELECTOR →
  item !! INPUT_CHANNEL_SELECTOR = Some sel →
  sel ≠ VNone →
  py_len sel = Err TypeError →
  make_cut fs args item = Ok (cut, item1) →
  (rec_num_channels (recording cut) = 1%nat →
     convert_item fs args item = Err TypeError) ∧
  (rec_num_channels (recording cut) ≠ 1%nat →
     select_input_channels cut item1 =
     Ok (with_channels cut sel, delete INPUT_CHANNEL_SELECTOR item1)).
Proof.
  intros Hne Hsel Hnone Hlen Hcut.
  pose proof (make_cut_num_channels _ _ _ _ _ Hcut) as Hnum.
  assert (item1 !! INPUT_CHANNEL_SELECTOR = Some sel) as Hsel1.
  { rewrite (make_cut_frame _ _ _ _ _ Hcut). apply lookup_without_Some.
    split; [|done]. set_solver. }
  assert (is_not_None sel = true) as Hnot by by destruct sel.
  split.
  - intros Hone. rewrite convert_item_eq, Hcut, select_input_channels_eq, Hsel1.
    cbv zeta. cbn [default from_option id]. by rewrite Hnot, Hnum, Hone, Hlen.
  - intros Hmany. rewrite select_input_channels_eq, Hsel1.
    cbv zeta. cbn [default from_option id]. rewrite Hnot, Hnum.
    by apply Nat.eqb_neq in Hmany as ->.
Qed.

(** X12: for a record with a target path and a target channel
    selector list: a one-channel target and a list not of length one
    fail the selector assertion for the target; a one-channel target
    and a list of length one attach the target and drop the selector; a
    target with another number of channels is attached and the list is
    stored in the extension map under lhotse's target selector key;
    the cut handed to the writer holds the one and the other unless a
    field of the same name, [target_recording] or the selector key, is
    left in the record, which line 138 then puts in its place. *)
Theorem target_channel_selector fs args item c1 i1 c2 i2 v path target chans :
  make_cut fs args item = Ok (c1, i1) →
  select_input_channels c1 i1 = Ok (c2, i2) →
  i2 !! target_key args = Some v →
  get_full_path fs v (input args) = Ok path →
  create_recording fs path = Ok target →
  target_key args ≠ TARGET_CHANNEL_SELECTOR →
  i2 !! TARGET_CHANNEL_SELECTOR = Some (VList chans) →
  (rec_num_channels target = 1%nat → length chans ≠ 1%nat →
     convert_item fs args item =
     Err (AssertionError
            (SingleChannelSelector TARGET_CHANNEL_SELECTOR (VList chans)))) ∧
  (rec_num_channels target = 1%nat → length chans = 1%nat →
     attach_target fs args c2 i2 =
     Ok (set_target_recording c2 target,
         delete TARGET_CHANNEL_SELECTOR (delete (target_key args) i2))) ∧
  (rec_num_channels target ≠ 1%nat →
     ∀ cut rest, convert_item fs args item = Ok (cut, rest) →
       (rest !! "target_recording" = None →
          target_recording cut = Some (CRecording target)) ∧
       (rest !! LHOTSE_TARGET_CHANNEL_SELECTOR = None →
          custom_map cut !! LHOTSE_TARGET_CHANNEL_SELECTOR =
          Some (CValue (VList chans)))).
Proof.
  intros H1 H2 Hv Hp Hr Hne Hsel.
  assert (attach_target fs args c2 i2 =
          if (rec_num_channels target =? 1)%nat then
            if (length chans =? 1)%nat then
              Ok (set_target_recording c2 target,
                  delete TARGET_CHANNEL_SELECTOR (delete (target_key args) i2))
            else Err (AssertionError
                        (SingleChannelSelector TARGET_CHANNEL_SELECTOR (VList chans)))
          else Ok (with_custom (set_target_recording c2 target)
                     LHOTSE_TARGET_CHANNEL_SELECTOR (VList chans),
                   delete TARGET_CHANNEL_SELECTOR (delete (target_key args) i2)))
    as Hstage.
  { rewrite attach_target_eq, Hv, Hp. cbn [mbind result_bind]. rewrite Hr.
    cbn [mbind result_bind]. cbv zeta.
    rewrite (lookup_delete_ne i2 (target_key args) TARGET_CHANNEL_SELECTOR) by done.
    rewrite Hsel. cbn [default from_option id is_not_None py_len mbind result_bind].
    unfold py_assert. by destruct (_ =? 1)%nat, (length chans =? 1)%nat. }
  split; [|split].
  - intros Hone Hlen. rewrite convert_item_eq, H1, H2, Hstage, Hone.
    by apply Nat.eqb_neq in Hlen as ->.
  - intros Hone Hlen. by rewrite Hstage, Hone, Hlen.
  - intros Hmany cut rest Hc. apply Nat.eqb_neq in Hmany.
    rewrite Hmany in Hstage.
    rewrite convert_item_eq, H1, H2, Hstage in Hc.
    destruct (attach_reference fs args _ _) as [[c4 i4]|] eqn:E4; [|done].
    destruct (attach_embedding fs args c4 i4) as [[c5 i5]|] eqn:E5; [|done].
    apply copy_remaining_Ok in Hc as (->&_&Hcut&_).
    unfold target_recording. rewrite Hcut, !attached_entry.
    split; intros ->;
      rewrite (attach_embedding_keeps _ _ _ _ _ _ _ E5) by discriminate;
      rewrite (attach_reference_keeps _ _ _ _ _ _ _ E4) by discriminate;
      cbn [with_custom set_target_recording set_attr set_custom custom_map
           custom default from_option id];
      by attached_lookup.
Qed.

(** X13: for a record with a reference path and a reference channel
    selector list: a one-channel reference and a list not of length one
    fail the selector assertion for the reference; a one-channel
    reference and a list of length one attach the reference and drop
    the selector; a reference with another number of channels is
    attached and the list is stored in the extension map under lhotse's
    reference selector key; the cut handed to the writer holds the one
    and the other unless a field of the same name,
    [reference_recording] or the selector key, is left in the record,
    which line 138 then puts in its place. *)
Theorem reference_channel_selector fs args item c1 i1 c2 i2 c3 i3 v path
    reference chans :
  make_cut fs args item = Ok (c1, i1) →
  select_input_channels c1 i1 = Ok (c2, i2) →
  attach_target fs args c2 i2 = Ok (c3, i3) →
  i3 !! reference_key args = Some v →
  get_full_path fs v (input args) = Ok path →
  create_recording fs path = Ok reference →
  reference_key args ≠ REFERENCE_CHANNEL_SELECTOR →
  i3 !! REFERENCE_CHANNEL_SELECTOR = Some (VList chans) →
  (rec_num_channels reference = 1%nat → length chans ≠ 1%nat →
     convert_item fs args item =
     Err (AssertionError
            (SingleChannelSelector REFERENCE_CHANNEL_SELECTOR (VList chans)))) ∧
  (rec_num_channels reference = 1%nat → length chans = 1%nat →
     attach_reference fs args c3 i3 =
     Ok (set_reference_recording c3 reference,
         delete REFERENCE_CHANNEL_SELECTOR (delete (reference_key args) i3))) ∧
  (rec_num_channels reference ≠ 1%nat →
     ∀ cut rest, convert_item fs args item = Ok (cut, rest) →
       (rest !! "reference_recording" = None →
          reference_recording cut = Some (CRecording reference)) ∧
       (rest !! LHOTSE_REFERENCE_CHANNEL_SELECTOR = None →
          custom_map cut !! LHOTSE_REFERENCE_CHANNEL_SELECTOR =
          Some (CValue (VList chans)))).
Proof.
  intros H1 H2 H3 Hv Hp Hr Hne Hsel.
  assert (attach_reference fs args c3 i3 =
          if (rec_num_channels reference =? 1)%nat then
            if (length chans =? 1)%nat then
              Ok (set_reference_recording c3 reference,
                  delete REFERENCE_CHANNEL_SELECTOR (delete (reference_key args) i3))
            else Err (AssertionError
                        (SingleChannelSelector REFERENCE_CHANNEL_SELECTOR (VList chans)))
          else Ok (with_custom (set_reference_recording c3 reference)
                     LHOTSE_REFERENCE_CHANNEL_SELECTOR (VList chans),
                   delete REFERENCE_CHANNEL_SELECTOR (delete (reference_key args) i3)))
    as Hstage.
  { rewrite attach_reference_eq, Hv, Hp. cbn [mbind result_bind]. rewrite Hr.
    cbn [mbind result_bind]. cbv zeta.
    rewrite (lookup_delete_ne i3 (reference_key args) REFERENCE_CHANNEL_SELECTOR)
      by done.
    rewrite Hsel. cbn [default from_option id is_not_None py_len mbind result_bind].
    unfold py_assert. by destruct (_ =? 1)%nat, (length chans =? 1)%nat. }
  split; [|split].
  - intros Hone Hlen. rewrite convert_item_eq, H1, H2, H3, Hstage, Hone.
    by apply Nat.eqb_neq in Hlen as ->.
  - intros Hone Hlen. by rewrite Hstage, Hone, Hlen.
  - intros Hmany cut rest Hc. apply Nat.eqb_neq in Hmany.
    rewrite Hmany in Hstage.
    rewrite convert_item_eq, H1, H2, H3, Hstage in Hc.
    destruct (attach_embedding fs args _ _) as [[c5 i5]|] eqn:E5; [|done].
    apply copy_remaining_Ok in Hc as (->&_&Hcut&_).
    unfold reference_recording. rewrite Hcut, !attached_entry.
    split; intros ->;
      rewrite (attach_embedding_keeps _ _ _ _ _ _ _ E5) by discriminate;
      cbn [with_custom set_reference_recording set_attr set_custom custom_map
           custom default from_option id];
      by attached_lookup.
Qed.

(** ** Exceptions *)

(** X4: [create_recording] returns a recording for a list of paths
    exactly when every file can be probed, every sampling rate equals
    the first one, the list is not empty and its last path is not the
    empty string. *)
Theorem create_recording_succeeds fs ps :
  (∃ r, create_recording fs (ManyPaths ps) = Ok r) ↔
  ∃ infs l, probed fs ps infs ∧ same_samplerates infs = true ∧
            last ps = Some l ∧ l ≠ "".
Proof.
  split.
  - intros [r Hr].
    destruct (create_recording_many_probed _ _ _ Hr) as (infs & Hprobed).
    rewrite (create_recording_many _ _ _ Hprobed) in Hr.
    destruct (same_samplerates infs) eqn:Hs; [|done].
    destruct (last ps) as [l|] eqn:Hl; [|done].
    exists infs, l. repeat split; try done. by intros ->.
  - intros (infs & l & Hprobed & Hs & Hl & Hne).
    rewrite (create_recording_many _ _ _ Hprobed), Hs, Hl.
    destruct l as [|c l]; [done|]. cbn [str_first mbind result_bind].
    destruct infs as [|i0 infs]; [|by eexists].
    apply probed_length in Hprobed. by destruct ps.
Qed.

(** X5: when [create_recording] fails on a list of paths, the
    exception is the error of a file of the list that cannot be probed,
    or the assertion on mismatched sampling rates with all files probed,
    or UnboundLocalError for the empty list, or IndexError for a last
    path that is the empty string. *)
Theorem create_recording_exceptions fs ps e :
  create_recording fs (ManyPaths ps) = Err e →
  (∃ path, path ∈ ps ∧ audio_info fs path = None ∧ e = OSError path) ∨
  (e = AssertionError (MismatchedSamplingRates (ManyPaths ps)) ∧
   ∃ infs, probed fs ps infs ∧ same_samplerates infs = false) ∨
  (e = UnboundLocalError "p" ∧ ps = []) ∨
  (e = IndexError ∧ last ps = Some "").
Proof.
  intros H.
  destruct (for_each (loop_body fs) (OnePath <$> ps) loop_init) as [st|e'] eqn:E.
  - destruct (for_each_loop_body_probed _ _ _ _ E) as (infs & Hprobed).
    rewrite (create_recording_many _ _ _ Hprobed) in H.
    destruct (same_samplerates infs) eqn:Hs.
    2:{ injection H as <-. right. left. split; [done|]. by exists infs. }
    destruct (last ps) as [[|c l]|] eqn:Hl.
    + injection H as <-. by right; right; right.
    + cbn [str_first mbind result_bind] in H.
      destruct infs as [|i0 infs]; [|done].
      apply probed_length in Hprobed. by destruct ps.
    + injection H as <-. right. right. left. split; [done|].
      by apply last_None.
  - unfold create_recording, ManyPaths in H. rewrite E in H. injection H as <-.
    apply for_each_Err in E as (st' & entry & Hin & Hb).
    apply list_elem_of_fmap in Hin as (path & -> & Hin).
    unfold loop_body, info, read in Hb.
    destruct (audio_info fs path) eqn:Hi; [done|].
    injection Hb as <-. left. by exists path.
Qed.

(** ** Fields left in the record *)

(** X18: a target channel selector in a record without the target path
    key never makes the conversion fail on the selector assertion for
    the target, whatever its value; and when the conversion succeeds,
    the selector is left in the record and copied, key and value, into
    the extension map.  The same holds for a reference channel selector
    in a record without the reference path key. *)
Theorem orphan_channel_selector_kept fs args item sel :
  (item !! target_key args = None →
   item !! TARGET_CHANNEL_SELECTOR = Some sel →
   TARGET_CHANNEL_SELECTOR ∉
     ({[input_key args; reference_key args; embedding_key args]} : gset string) →
   (∀ e, convert_item fs args item = Err e →
      ¬ selector_assertion TARGET_CHANNEL_SELECTOR e) ∧
   (∀ cut rest, convert_item fs args item = Ok (cut, rest) →
      rest !! TARGET_CHANNEL_SELECTOR = Some sel ∧
      custom_map cut !! TARGET_CHANNEL_SELECTOR = Some (CValue sel))) ∧
  (item !! reference_key args = None →
   item !! REFERENCE_CHANNEL_SELECTOR = Some sel →
   REFERENCE_CHANNEL_SELECTOR ∉
     ({[input_key args; target_key args; embedding_key args]} : gset string) →
   (∀ e, convert_item fs args item = Err e →
      ¬ selector_assertion REFERENCE_CHANNEL_SELECTOR e) ∧
   (∀ cut rest, convert_item fs args item = Ok (cut, rest) →
      rest !! REFERENCE_CHANNEL_SELECTOR = Some sel ∧
      custom_map cut !! REFERENCE_CHANNEL_SELECTOR = Some (CValue sel))).
Proof.
  destruct selector_keys_distinct as (T1&T2&T3&T4&R1&R2&R3).
  split.
  - intros Habs Hsel Hkeys. split.
    + intros e He Ha.
      destruct (convert_item_Err _ _ _ _ _ He Ha) as [?|[[_ [v Hv]]|[? _]]];
        congruence.
    + intros cut rest Hc.
      assert (rest !! TARGET_CHANNEL_SELECTOR = Some sel) as Hrest.
      { rewrite (convert_item_frame _ _ _ _ _ Hc). apply lookup_without_Some.
        split; [|done]. unfold popped_keys. cbv zeta.
        rewrite target_keys_absent by done.
        pose proof (reference_keys_subseteq args
          (without (primary_keys args ∪ ∅) item)).
        pose proof (embedding_keys_subseteq args
          (without (primary_keys args ∪ ∅ ∪ reference_keys args
             (without (primary_keys args ∪ ∅) item)) item)).
        unfold primary_keys in *. set_solver. }
      split; [done|].
      by apply (convert_item_copies _ _ _ _ _ _ _ Hc).
  - intros Habs Hsel Hkeys. split.
    + intros e He Ha.
      destruct (convert_item_Err _ _ _ _ _ He Ha) as [?|[[? _]|[_ [v Hv]]]];
        congruence.
    + intros cut rest Hc.
      assert (rest !! REFERENCE_CHANNEL_SELECTOR = Some sel) as Hrest.
      { rewrite (convert_item_frame _ _ _ _ _ Hc). apply lookup_without_Some.
        split; [|done]. unfold popped_keys. cbv zeta.
        rewrite reference_keys_absent by done.
        pose proof (target_keys_subseteq args (without (primary_keys args) item)).
        pose proof (embedding_keys_subseteq args
          (without (primary_keys args ∪ target_keys args
             (without (primary_keys args) item) ∪ ∅) item)).
        unfold primary_keys in *. set_solver. }
      split; [done|].
      by apply (convert_item_copies _ _ _ _ _ _ _ Hc).
Qed.

(** X19: the fields left in a record are copied onto a cut that has a
    [custom] dict only: a conversion that leaves a field in the record
    succeeds only for a record that names a target, a reference or an
    embedding when the stage for it runs. *)
Theorem copied_fields_need_attachment fs args item cut rest :
  convert_item fs args item = Ok (cut, rest) →
  rest ≠ ∅ →
  is_Some (custom cut) ∧
  (target_key args ∈ dom item ∖ primary_keys args ∨
   reference_key args ∈ dom item ∖ popped_before_reference args item ∨
   embedding_key args ∈ dom item ∖ popped_before_embedding args item).
Proof.
  intros (c1&i1&c2&c3&c4&c5&H1&H2&H3&H4&H5&H6)%convert_item_stages Hrest.
  apply make_cut_fresh in H1 as (Hc1&_).
  apply select_input_channels_effect in H2 as (_&_&Hc2).
  apply attach_target_effect in H3.
  apply attach_reference_effect in H4.
  apply attach_embedding_effect in H5.
  rewrite copy_remaining_eq, bool_decide_true in H6 by done.
  destruct (custom c5) as [m|] eqn:E5; [|done]. injection H6 as <-.
  split; [done|].
  rewrite <- !dom_without, !elem_of_dom.
  destruct (without (primary_keys args) item !! target_key args);
    [by left|subst c3].
  destruct (without (popped_before_reference args item) item
            !! reference_key args); [by right; left|subst c4].
  destruct (without (popped_before_embedding args item) item
            !! embedding_key args); [by right; right|subst c5].
  congruence.
Qed.

(** X20: a record that names no target, no reference and no embedding
    and holds a field the first two stages do not pop is not converted:
    line 138 finds no [custom] dict on the cut and raises
    AttributeError, whatever the field. *)
Theorem leftover_field_without_attachment fs args item key v c1 i1 c2 i2 :
  item !! key = Some v →
  key ∉ primary_keys args →
  item !! target_key args = None →
  item !! reference_key args = None →
  item !! embedding_key args = None →
  make_cut fs args item = Ok (c1, i1) →
  select_input_channels c1 i1 = Ok (c2, i2) →
  convert_item fs args item = Err (AttributeError "update").
Proof.
  intros Hv Hkey Ht Hr He H1 H2.
  pose proof (select_input_channels_rest _ _ _ _ _ _ _ H1 H2) as F2.
  assert (∀ k, item !! k = None → i2 !! k = None) as Hnone.
  { intros k Hk. rewrite F2, lookup_without. by case_decide. }
  apply (convert_item_without_dict _ _ _ _ _ _ _ H1 H2
           (Hnone _ Ht) (Hnone _ Hr) (Hnone _ He)).
  intros Hempty.
  assert (i2 !! key = Some v) as Hv2.
  { rewrite F2. by apply lookup_without_Some. }
  by rewrite Hempty, lookup_empty in Hv2.
Qed.

(** ** The further properties on the example directory *)

Lemma empty_path_list_example :
  convert_item demo_fs demo_args empty_list_item = Err (UnboundLocalError "p").
Proof.
  apply (empty_path_list demo_fs demo_args empty_list_item).
  by_vm.
Defined.

Lemma unreadable_file_example :
  create_recording demo_fs (ManyPaths ["/m/a.wav"; "/m/zz.wav"; "/m/c.wav"]) =
  Err (OSError "/m/zz.wav").
Proof.
  apply (unreadable_file demo_fs ["/m/a.wav"] [stereo_info] "/m/zz.wav" ["/m/c.wav"]).
  - repeat constructor.
  - reflexivity.
Defined.

Lemma create_array_storage_example :
  create_array demo_fs (OnePath "/m/emb/x.npy") =
  Ok {| storage_type := "numpy_files"; storage_path := "/m/emb";
        storage_key := "x.npy"; shape := [3; 4] |}.
Proof.
  destruct (create_array_storage demo_fs {| arr_shape := [3; 4]; arr_data := [] |})
    as [Hdir _].
  apply (Hdir "/m/em" "b"%char "x.npy"); try reflexivity. discriminate.
Defined.

Lemma lhotse_selector_entries_example :
  convert_item demo_fs demo_args target_item =
    Ok (outcome (convert_item demo_fs demo_args target_item)) ∧
  is_Some (target_recording
             (outcome (convert_item demo_fs demo_args target_item)).1).
Proof.
  split; [by_vm|].
  destruct (lhotse_selector_entries demo_fs demo_args target_item
              (outcome (convert_item demo_fs demo_args target_item)).1
              (outcome (convert_item demo_fs demo_args target_item)).2)
    as [Ht _]; [by_vm|].
  destruct Ht as [[v Hv]|Ht].
  - apply (bool_decide_unpack _). vm_compute. exact I.
  - assert ((outcome (convert_item demo_fs demo_args target_item)).2
            !! LHOTSE_TARGET_CHANNEL_SELECTOR = None) as Hnone
      by (by_vm).
    rewrite Hnone in Hv. discriminate.
  - exact Ht.
Defined.

Lemma attachments_present_example :
  convert_item demo_fs demo_args reference_item =
    Ok (outcome (convert_item demo_fs demo_args reference_item)) ∧
  ¬ (∃ r, target_recording
            (outcome (convert_item demo_fs demo_args reference_item)).1
          = Some (CRecording r)) ∧
  (∃ r, reference_recording
          (outcome (convert_item demo_fs demo_args reference_item)).1
        = Some (CRecording r)) ∧
  (∃ a, embedding_vector
          (outcome (convert_item demo_fs demo_args reference_item)).1
        = Some (CArray a)).
Proof.
  split; [by_vm|].
  destruct (attachments_present demo_fs demo_args reference_item
              (outcome (convert_item demo_fs demo_args reference_item)).1
              (outcome (convert_item demo_fs demo_args reference_item)).2)
    as (Ht & Hr & He); [by_vm|].
  split; [|split].
  - intros H. apply Ht in H. revert H.
    apply (bool_decide_unpack _). vm_compute. exact I.
  - apply Hr. apply (bool_decide_unpack _). vm_compute. exact I.
  - apply He. apply (bool_decide_unpack _). vm_compute. exact I.
Defined.

Lemma multi_file_recording_id_example :
  convert_item demo_fs demo_args stereo_item =
    Ok (outcome (convert_item demo_fs demo_args stereo_item)) ∧
  String.length
    (rec_id (recording (outcome (convert_item demo_fs demo_args stereo_item)).1))
  = 1%nat.
Proof.
  split; [by_vm|].
  apply (multi_file_recording_id demo_fs demo_args stereo_item
           [VStr "a.wav"; VStr "b.wav"] _
           (outcome (convert_item demo_fs demo_args stereo_item)).2);
    by_vm.
Defined.

Lemma null_input_selector_example :
  convert_item demo_fs demo_args null_selector_item =
  convert_item demo_fs demo_args offset_item.
Proof.
  etrans.
  - apply (null_input_selector demo_fs demo_args null_selector_item).
    + vm_compute. discriminate.
    + by_vm.
  - by_vm.
Defined.

Lemma unsized_input_selector_example :
  convert_item demo_fs demo_args number_selector_item = Err TypeError.
Proof.
  destruct (unsized_input_selector demo_fs demo_args number_selector_item
              (outcome (make_cut demo_fs demo_args number_selector_item)).1
              (outcome (make_cut demo_fs demo_args number_selector_item)).2
              (VInt 0))
    as [Hone _].
  - vm_compute. discriminate.
  - by_vm.
  - discriminate.
  - reflexivity.
  - by_vm.
  - apply Hone. by_vm.
Defined.

Lemma target_channel_selector_example :
  convert_item demo_fs demo_args target_item =
    Ok (outcome (convert_item demo_fs demo_args target_item)) ∧
  target_recording (outcome (convert_item demo_fs demo_args target_item)).1 =
    Some (CRecording stereo_recording) ∧
  custom_map (outcome (convert_item demo_fs demo_args target_item)).1
    !! LHOTSE_TARGET_CHANNEL_SELECTOR = Some (CValue (VList [VInt 1])).
Proof.
  split; [by_vm|].
  pose (s1 := outcome (make_cut demo_fs demo_args target_item)).
  pose (s2 := outcome (select_input_channels s1.1 s1.2)).
  destruct (target_channel_selector demo_fs demo_args target_item
              s1.1 s1.2 s2.1 s2.2 (VStr "a.wav") (OnePath "/m/a.wav")
              stereo_recording [VInt 1])
    as (_ & _ & Hmany).
  - by_vm.
  - by_vm.
  - by_vm.
  - by_vm.
  - by_vm.
  - vm_compute. discriminate.
  - by_vm.
  - destruct (Hmany ltac:(vm_compute; discriminate)
                (outcome (convert_item demo_fs demo_args target_item)).1
                (outcome (convert_item demo_fs demo_args target_item)).2)
      as [Hrec Hcustom]; [by_vm|].
    split; [apply Hrec|apply Hcustom]; by_vm.
Defined.

Lemma reference_channel_selector_example :
  convert_item demo_fs demo_args reference_item =
    Ok (outcome (convert_item demo_fs demo_args reference_item)) ∧
  reference_recording
    (outcome (convert_item demo_fs demo_args reference_item)).1 =
    Some (CRecording stereo_recording) ∧
  custom_map (outcome (convert_item demo_fs demo_args reference_item)).1
    !! LHOTSE_REFERENCE_CHANNEL_SELECTOR = Some (CValue (VList [VInt 0])).
Proof.
  split; [by_vm|].
  pose (s1 := outcome (make_cut demo_fs demo_args reference_item)).
  pose (s2 := outcome (select_input_channels s1.1 s1.2)).
  pose (s3 := outcome (attach_target demo_fs demo_args s2.1 s2.2)).
  destruct (reference_channel_selector demo_fs demo_args reference_item
              s1.1 s1.2 s2.1 s2.2 s3.1 s3.2 (VStr "a.wav") (OnePath "/m/a.wav")
              stereo_recording [VInt 0])
    as (_ & _ & Hmany).
  - by_vm.
  - by_vm.
  - by_vm.
  - by_vm.
  - by_vm.
  - by_vm.
  - vm_compute. discriminate.
  - by_vm.
  - destruct (Hmany ltac:(vm_compute; discriminate)
                (outcome (convert_item demo_fs demo_args reference_item)).1
                (outcome (convert_item demo_fs demo_args reference_item)).2)
      as [Hrec Hcustom]; [by_vm|].
    split; [apply Hrec|apply Hcustom]; by_vm.
Defined.

Lemma create_recording_exceptions_example :
  ∃ infs, probed demo_fs ["/m/a.wav"; "/m/c.wav"] infs ∧
          same_samplerates infs = false.
Proof.
  destruct (create_recording_exceptions demo_fs ["/m/a.wav"; "/m/c.wav"]
              (AssertionError
                 (MismatchedSamplingRates (ManyPaths ["/m/a.wav"; "/m/c.wav"]))))
    as [(p & _ & _ & Hp)|[[_ H]|[[Hp _]|[Hp _]]]];
    [by_vm|discriminate|exact H|discriminate|discriminate].
Defined.

Lemma orphan_channel_selector_kept_example :
  convert_item demo_fs demo_args orphan_reference_item =
    Ok (outcome (convert_item demo_fs demo_args orphan_reference_item)) ∧
  custom_map (outcome (convert_item demo_fs demo_args orphan_reference_item)).1
    !! TARGET_CHANNEL_SELECTOR = Some (CValue (VList [VInt 0; VInt 1; VInt 2])).
Proof.
  split; [by_vm|].
  destruct (orphan_channel_selector_kept demo_fs demo_args orphan_reference_item
              (VList [VInt 0; VInt 1; VInt 2]))
    as [Htarget _].
  destruct Htarget as [_ Hcopy].
  - by_vm.
  - by_vm.
  - apply (bool_decide_unpack _). vm_compute. exact I.
  - apply (Hcopy _ (outcome (convert_item demo_fs demo_args
                               orphan_reference_item)).2).
    by_vm.
Defined.

Lemma copied_fields_need_attachment_example :
  convert_item demo_fs demo_args speaker_target_item =
    Ok (outcome (convert_item demo_fs demo_args speaker_target_item)) ∧
  is_Some (custom (outcome (convert_item demo_fs demo_args
                              speaker_target_item)).1).
Proof.
  split; [by_vm|].
  apply (copied_fields_need_attachment demo_fs demo_args speaker_target_item
           _ (outcome (convert_item demo_fs demo_args speaker_target_item)).2).
  - by_vm.
  - apply (bool_decide_unpack _). vm_compute. exact I.
Defined.

Lemma leftover_field_without_attachment_example :
  convert_item demo_fs demo_args speaker_item = Err (AttributeError "update").
Proof.
  pose (s1 := outcome (make_cut demo_fs demo_args speaker_item)).
  apply (leftover_field_without_attachment demo_fs demo_args speaker_item
           "speaker" (VStr "A") s1.1 s1.2
           (outcome (select_input_channels s1.1 s1.2)).1
           (outcome (select_input_channels s1.1 s1.2)).2).
  - by_vm.
  - apply (bool_decide_unpack _). vm_compute. exact I.
  - by_vm.
  - by_vm.
  - by_vm.
  - by_vm.
  - by_vm.
Defined.
